(** * MD-Merger: a shallow embedding of the merge pipeline

    The development follows the three Python sources of the repository:

    - [merger_config.py]          : class [MergerConfig] (module [Config]);
    - [markdown_merger_c_l_i.py]  : the collection, validation and merge
                                    functions and the directory branch of
                                    [main] (module [Merger]), and [main]
                                    from the parsed arguments on (module
                                    [Cli]);
    - [app.py]                    : [allowed_file] (module [App]);
    - the small part of Python's [str], [sorted] and [os.path.join] that
      these functions use (module [Py]).

    Python's [str] is modelled by [string]; a character stands for a code
    point below 256, and strings are compared code point by code point,
    as Python compares them. *)

From Stdlib Require Import List String Ascii Bool Arith ZArith Lia.
From Stdlib Require Import Permutation Sorted.
Import ListNotations.
Open Scope string_scope.

(* ================================================================== *)
(** * Python primitives used by the sources *)
(* ================================================================== *)

Module Py.

(** The one-character string made of a line feed. *)
Definition nl : string := String (ascii_of_nat 10) "".

(** [c.lower()] on one code point below 256: the ASCII capitals and
    the Latin-1 capitals (U+00C0..U+00DE without the multiplication
    sign U+00D7) move up by 32, everything else stays. *)
Definition lower_char (c : ascii) : ascii :=
  let n := nat_of_ascii c in
  if (((65 <=? n) && (n <=? 90))
      || ((192 <=? n) && (n <=? 222) && negb (n =? 215)))%nat
  then ascii_of_nat (n + 32)
  else c.

(** [s.lower()] *)
Fixpoint lower (s : string) : string :=
  match s with
  | EmptyString => EmptyString
  | String c s' => String (lower_char c) (lower s')
  end.

(** [s.endswith(suffix)]: [suffix] is [s] itself or ends the tail of [s]. *)
Fixpoint endswith (s suffix : string) : bool :=
  (s =? suffix)
  || match s with
     | EmptyString => false
     | String _ s' => endswith s' suffix
     end.

(** [s.startswith(p)] *)
Definition startswith (s p : string) : bool := String.prefix p s.

(** [key.split('.')]: never empty, the empty string gives one empty
    field. *)
Fixpoint split_dot (s : string) : list string :=
  match s with
  | EmptyString => [EmptyString]
  | String c s' =>
      if Ascii.eqb c "."%char then EmptyString :: split_dot s'
      else match split_dot s' with
           | field :: fields => String c field :: fields
           | [] => [String c EmptyString]
           end
  end.

(** Order of [str]: lexicographic on code points. *)
Definition str_le (a b : string) : bool := String.leb a b.

(** A stable sort by a string key.  [sorted] and [list.sort] are stable;
    an element is put in front of the first element that is not smaller,
    the elements to its right having been sorted first. *)
Section SortOn.
Context {A : Type} (key : A -> string).

Fixpoint insert_on (x : A) (l : list A) : list A :=
  match l with
  | [] => [x]
  | y :: l' =>
      if str_le (key x) (key y) then x :: l else y :: insert_on x l'
  end.

Fixpoint sort_on (l : list A) : list A :=
  match l with
  | [] => []
  | x :: l' => insert_on x (sort_on l')
  end.
End SortOn.

(** [sorted(l)] for a list of [str]. *)
Definition sorted (l : list string) : list string :=
  sort_on (fun s => s) l.

(** [os.path.join(a, p)] of [posixpath], two arguments. *)
Definition path_join (a p : string) : string :=
  if startswith p "/" then p
  else if (a =? "") || endswith a "/" then a ++ p
  else a ++ "/" ++ p.

(** Sortedness, for the statements below: by key, and of a list of
    strings. *)
Definition key_le {A : Type} (key : A -> string) (x y : A) : Prop :=
  str_le (key x) (key y) = true.

Definition ascending : list string -> Prop :=
  StronglySorted (fun a b => str_le a b = true).

End Py.

(* ================================================================== *)
(** * merger_config.py *)
(* ================================================================== *)

Module Config.

(** A parsed YAML or JSON document, and the values of the configuration
    tree.  A mapping keeps its items in insertion order, as a [dict]
    does; its keys are strings.  No induction principle is generated:
    the proofs below go by induction on key paths and on item lists. *)
#[local] Unset Elimination Schemes.
Inductive value : Type :=
| VNone
| VBool (b : bool)
| VInt (n : Z)
| VStr (s : string)
| VList (l : list value)
| VDict (items : list (string * value)).
#[local] Set Elimination Schemes.

Definition dict : Type := list (string * value).

(** [isinstance(v, dict)] *)
Definition is_dict (v : value) : bool :=
  match v with VDict _ => true | _ => false end.

(** [d.get(key)]: the value of the first item with that key. *)
Fixpoint dict_get (key : string) (d : dict) : option value :=
  match d with
  | [] => None
  | (k, v) :: d' => if k =? key then Some v else dict_get key d'
  end.

(** [key in d] *)
Definition dict_mem (key : string) (d : dict) : bool :=
  match dict_get key d with Some _ => true | None => false end.

(** [d[key] = v]: an existing key keeps its place, a new key goes last. *)
Fixpoint dict_set (key : string) (v : value) (d : dict) : dict :=
  match d with
  | [] => [(key, v)]
  | (k, w) :: d' =>
      if k =? key then (k, v) :: d' else (k, w) :: dict_set key v d'
  end.

(** [MergerConfig._load_default_config] *)
Definition load_default_config : dict :=
  [ ("output",
      VDict [ ("encoding", VStr "utf-8");
              ("line_ending", VStr Py.nl);
              ("add_toc", VBool false);
              ("add_timestamps", VBool false) ]);
    ("processing",
      VDict [ ("skip_empty_files", VBool true);
              ("normalize_line_endings", VBool true);
              ("remove_duplicate_headers", VBool false) ]);
    ("separators",
      VDict [ ("between_files", VStr "---");
              ("add_file_headers", VBool true);
              ("header_format", VStr "<!-- Quelle: {filepath} -->") ]);
    ("filters",
      VDict [ ("exclude_patterns",
                VList [VStr ".git"; VStr "__pycache__"; VStr ".DS_Store"]);
              ("include_only", VList [VStr ".md"]);
              ("max_file_size_mb", VInt 10) ]) ].

(** The body of [MergerConfig._deep_merge] once [update.items()] has been
    taken: the loop over the items of [update], each step giving the new
    state of the mutated [base].  The recursive call is on the value of
    the item at hand. *)
Fixpoint deep_merge_value (update : value) (base : dict) {struct update} : dict :=
  match update with
  | VDict items =>
      (fix loop (items : list (string * value)) (base : dict) {struct items} : dict :=
         match items with
         | [] => base
         | (key, v) :: rest =>
             loop rest
               (match v, dict_get key base with
                | VDict _, Some (VDict sub) =>
                    dict_set key (VDict (deep_merge_value v sub)) base
                | _, _ => dict_set key v base
                end)
         end) items base
  | _ => base
  end.

(** What a call can raise. *)
Inductive exn : Type :=
| OpenFailed         (* OSError of open() *)
| DecodeFailed       (* UnicodeDecodeError of the first read *)
| ParseFailed        (* yaml.safe_load / json.load rejected the text *)
| UnsupportedFormat  (* the ValueError raised for any other suffix *)
| NotAMapping.       (* AttributeError of [update.items()] *)

Inductive result (A : Type) : Type :=
| Ok (a : A)
| Raise (e : exn).
Arguments Ok {A} a.
Arguments Raise {A} e.

(** [MergerConfig._deep_merge(base, update)]: the state of [base] after
    the call, or the exception of [update.items()] when the document at
    top level is no mapping, raised before [base] is touched. *)
Definition deep_merge (base : dict) (update : value) : result dict :=
  match update with
  | VDict _ => Ok (deep_merge_value update base)
  | _ => Raise NotAMapping
  end.

(** [MergerConfig.get(key, default)] on the tree [config]. *)
Fixpoint get_keys (keys : list string) (v : value) (default : value) : value :=
  match keys with
  | [] => v
  | k :: keys' =>
      match v with
      | VDict d =>
          match dict_get k d with
          | Some v' => get_keys keys' v' default
          | None => default
          end
      | _ => default
      end
  end.

Definition get (config : dict) (key : string) (default : value) : value :=
  get_keys (Py.split_dot key) (VDict config) default.

(** One turn of the loop of [_deep_merge], and the loop on the items. *)
Definition deep_merge_step (key : string) (v : value) (base : dict) : dict :=
  match v, dict_get key base with
  | VDict _, Some (VDict sub) => dict_set key (VDict (deep_merge_value v sub)) base
  | _, _ => dict_set key v base
  end.

Definition deep_merge_items (items : list (string * value)) (base : dict) : dict :=
  deep_merge_value (VDict items) base.

(** A key path has a value in a tree: every key but the last leads to a
    mapping that has the next key. *)
Fixpoint has_path (keys : list string) (v : value) : bool :=
  match keys with
  | [] => true
  | k :: keys' =>
      match v with
      | VDict d =>
          match dict_get k d with
          | Some v' => has_path keys' v'
          | None => false
          end
      | _ => false
      end
  end.

(** An override document leaves a key path alone or descends along it:
    whatever it binds under a key of the path that is not the last one is
    a mapping, which in turn does the same for the rest of the path. *)
Fixpoint descends (keys : list string) (update : value) : bool :=
  match keys with
  | [] => true
  | k :: keys' =>
      match keys' with
      | [] => true
      | _ :: _ =>
          match update with
          | VDict items =>
              forallb
                (fun item : string * value =>
                   negb (fst item =? k)
                   || (is_dict (snd item) && descends keys' (snd item)))
                items
          | _ => true
          end
      end
  end.

(** The override [{"separators": {"between_files": "***"}}] and the
    default tree with that one value changed. *)
Definition override_between_files : value :=
  VDict [ ("separators", VDict [ ("between_files", VStr "***") ]) ].

Definition default_with_between_files : dict :=
  [ ("output",
      VDict [ ("encoding", VStr "utf-8");
              ("line_ending", VStr Py.nl);
              ("add_toc", VBool false);
              ("add_timestamps", VBool false) ]);
    ("processing",
      VDict [ ("skip_empty_files", VBool true);
              ("normalize_line_endings", VBool true);
              ("remove_duplicate_headers", VBool false) ]);
    ("separators",
      VDict [ ("between_files", VStr "***");
              ("add_file_headers", VBool true);
              ("header_format", VStr "<!-- Quelle: {filepath} -->") ]);
    ("filters",
      VDict [ ("exclude_patterns",
                VList [VStr ".git"; VStr "__pycache__"; VStr ".DS_Store"]);
              ("include_only", VList [VStr ".md"]);
              ("max_file_size_mb", VInt 10) ]) ].

(** What [open(config_file, 'r', encoding='utf-8')] finds: nothing it can
    open, a file whose bytes are no UTF-8 text (the parser's first read
    raises), or a text. *)
Inductive source : Type :=
| Unopenable
| Undecodable
| Text (text : string).

Section LoadConfigFile.

(** The outside world of [_load_config_file]: the files, and the two
    parsers, which give the document or raise. *)
Variable open_utf8 : string -> source.
Variable yaml_safe_load : string -> option value.
Variable json_load : string -> option value.

Definition parse_with (parser : string -> option value) (src : source) : result value :=
  match src with
  | Unopenable => Raise OpenFailed
  | Undecodable => Raise DecodeFailed
  | Text text =>
      match parser text with
      | Some document => Ok document
      | None => Raise ParseFailed
      end
  end.

(** The [with] block of [_load_config_file] up to the assignment of
    [user_config]. *)
Definition read_user_config (config_file : string) : result value :=
  match open_utf8 config_file with
  | Unopenable => Raise OpenFailed
  | src =>
      if Py.endswith config_file ".yaml" || Py.endswith config_file ".yml"
      then parse_with yaml_safe_load src
      else if Py.endswith config_file ".json"
      then parse_with json_load src
      else Raise UnsupportedFormat
  end.

(** [MergerConfig._load_config_file]: the new state of [self.config] and
    the warnings printed, one for the exception caught.  [_deep_merge]
    raises only before its first assignment, so the tree is the old one
    whenever an exception is caught. *)
Definition load_config_file (config : dict) (config_file : string) : dict * list exn :=
  match read_user_config config_file with
  | Raise e => (config, [e])
  | Ok user_config =>
      match deep_merge config user_config with
      | Ok config' => (config', [])
      | Raise e => (config, [e])
      end
  end.

(** The parser [_load_config_file] picks for a supported suffix. *)
Definition supported (config_file : string) : bool :=
  Py.endswith config_file ".yaml" || Py.endswith config_file ".yml"
  || Py.endswith config_file ".json".

Definition parser_for (config_file : string) : string -> option value :=
  if Py.endswith config_file ".yaml" || Py.endswith config_file ".yml"
  then yaml_safe_load else json_load.

(** [MergerConfig.__init__]; [if config_file:] is false for [None] and
    for the empty string. *)
Definition init (config_file : option string) : dict * list exn :=
  let config := load_default_config in
  match config_file with
  | None => (config, [])
  | Some f => if f =? "" then (config, []) else load_config_file config f
  end.

End LoadConfigFile.

End Config.

(* ================================================================== *)
(** * markdown_merger_c_l_i.py *)
(* ================================================================== *)

Module Merger.

(** What a path denotes: a file, with the text that
    [open(path, 'r', encoding='utf-8').read()] returns for it (its bytes
    decoded as UTF-8, every CR LF and every CR read as one line feed),
    [None] when that read raises; or a directory with its entries, files
    and directories, in the order the operating system lists them.
    [os.path.exists], [isfile] and [isdir] follow links, so a link to a
    file stands for the file; a directory that is reached through a
    link, which [os.walk] lists and does not enter, is no tree of this
    type.  No induction principle is generated, the recursion below is
    on listings. *)
#[local] Unset Elimination Schemes.
Inductive node : Type :=
| File (content : option string)
| Dir (listing : list (string * node)).
#[local] Set Elimination Schemes.

(** One yield of [os.walk]: [(root, dirs, files)]. *)
Definition triple : Type := string * list string * list string.

(** The names of the entries of a listing that are no directories. *)
Fixpoint file_names (listing : list (string * node)) : list string :=
  match listing with
  | [] => []
  | (name, File _) :: l => name :: file_names l
  | (_, Dir _) :: l => file_names l
  end.

(** The entries of a listing that are directories. *)
Fixpoint subdirs (listing : list (string * node)) : list (string * node) :=
  match listing with
  | [] => []
  | (name, File _) :: l => subdirs l
  | (name, Dir sub) :: l => (name, Dir sub) :: subdirs l
  end.

(** [os.walk(top)], top-down, as the loop of
    [collect_md_files_from_directory] drives it: the loop body sorts
    [dirs] in place when it receives a triple, and the walk then goes
    down into [dirs] in that order, each under the joined path.  A
    directory name travels with the walk of what it names.  Listing
    something that is no directory raises inside [os.walk], which
    swallows the error and yields nothing. *)
Fixpoint os_walk (n : node) (top : string) {struct n} : list triple :=
  match n with
  | File _ => []
  | Dir listing =>
      let walks :=
        (fix walks (l : list (string * node)) : list (string * (string -> list triple)) :=
           match l with
           | [] => []
           | (name, child) :: l' =>
               match child with
               | File _ => walks l'
               | Dir _ => (name, os_walk child) :: walks l'
               end
           end) listing in
      let dirs := Py.sort_on fst walks in
      (top, map fst dirs, file_names listing)
        :: flat_map (fun d => snd d (Py.path_join top (fst d))) dirs
  end.

(** [file.lower().endswith('.md')] *)
Definition is_md (file : string) : bool :=
  Py.endswith (Py.lower file) ".md".

(** What the console receives. *)
Inductive event : Type :=
| Processing (filepath : string)        (* Verarbeite: ... *)
| ReadNotFound (filepath : string)      (* Fehler: Datei ... nicht gefunden. *)
| ReadNotUtf8 (filepath : string)       (* ... konnte nicht als UTF-8 gelesen werden. *)
| ReadFailed (filepath : string)        (* Fehler beim Lesen der Datei ... *)
| WriteFailed (output_file : string)    (* Fehler beim Schreiben der Ausgabedatei ... *)
| SkipMissing (file : string)           (* Warnung: Datei ... existiert nicht ... *)
| SkipNotAFile (file : string)          (* Warnung: ... ist keine Datei ... *)
| SkipNotMarkdown (file : string).      (* Warnung: ... ist keine Markdown-Datei ... *)

(** The two fatal ends of the directory branch of [main], each a message
    on stderr followed by [sys.exit(1)]. *)
Inductive fatal : Type :=
| DirectoryNotFound (directory : string)  (* Fehler: Verzeichnis ... existiert nicht. *)
| NotADirectory (directory : string).     (* Fehler: ... ist kein Verzeichnis. *)

(** The destination as [open(output_file, 'w')] and [output.write] see
    it: whether it opens, and whether a write of a chunk after what has
    been written goes through. *)
Record destination : Type := {
  opens : bool;
  accepts : string -> string -> bool
}.

(** The state the merge loop threads: the text written so far and the
    console; [None] in the result is an exception on its way to the
    [except] clause. *)
Record world : Type := {
  written : string;
  console : list event
}.

Definition io (A : Type) : Type := world -> option A * world.

Definition ret {A : Type} (a : A) : io A := fun w => (Some a, w).

Definition bind {A B : Type} (m : io A) (k : A -> io B) : io B :=
  fun w =>
    match m w with
    | (Some a, w') => k a w'
    | (None, w') => (None, w')
    end.

Notation "x <- m ;; k" := (bind m (fun x => k))
  (at level 61, m at next level, right associativity).
Notation "m ;; k" := (bind m (fun _ => k))
  (at level 61, right associativity).

Definition print (e : event) : io unit :=
  fun w => (Some tt, {| written := written w; console := console w ++ [e] |}).

Section FileSystem.

(** The file system when the run starts.  Every read of a source is
    taken from it.  The code opens the output path for writing before
    it reads, which empties a source that has that path: such a list of
    sources is excluded, by a hypothesis, wherever the text written is
    stated from the texts of the sources.  A file has one path here:
    paths are told apart as strings. *)
Variable fs : string -> option node.

(** [os.path.exists], [os.path.isfile], [os.path.isdir] *)
Definition exists_ (path : string) : bool :=
  match fs path with Some _ => true | None => false end.

Definition isfile (path : string) : bool :=
  match fs path with Some (File _) => true | _ => false end.

Definition isdir (path : string) : bool :=
  match fs path with Some (Dir _) => true | _ => false end.

(** [collect_md_files_from_directory] *)
Definition walk (directory : string) : list triple :=
  match fs directory with
  | Some n => os_walk n directory
  | None => []
  end.

Definition collect_md_files_from_directory (directory : string) : list string :=
  flat_map
    (fun t : triple =>
       let '(root, dirs, files) := t in
       map (Py.path_join root) (filter is_md (Py.sorted files)))
    (walk directory).

(** [read_markdown_file]: every failure prints and returns the empty
    string. *)
Definition read_markdown_file (filepath : string) : io string :=
  match fs filepath with
  | Some (File (Some content)) => ret content
  | None => print (ReadNotFound filepath) ;; ret ""
  | Some (File None) => print (ReadNotUtf8 filepath) ;; ret ""
  | Some (Dir _) => print (ReadFailed filepath) ;; ret ""
  end.

(** [validate_input_files]: the loop, then [sorted]. *)
Fixpoint validate_loop (files : list string) (valid_files : list string) : io (list string) :=
  match files with
  | [] => ret valid_files
  | file :: rest =>
      if negb (exists_ file) then
        print (SkipMissing file) ;; validate_loop rest valid_files
      else if negb (isfile file) then
        print (SkipNotAFile file) ;; validate_loop rest valid_files
      else if negb (is_md file) then
        print (SkipNotMarkdown file) ;; validate_loop rest valid_files
      else validate_loop rest (valid_files ++ [file])
  end.

Definition validate_input_files (files : list string) : io (list string) :=
  valid_files <- validate_loop files [] ;;
  ret (Py.sorted valid_files).

(** The directory branch of [main], lines 187 to 196: the two checks,
    then collection and validation. *)
Definition main_directory (directory : string) : fatal + io (list string) :=
  if negb (exists_ directory) then inl (DirectoryNotFound directory)
  else if negb (isdir directory) then inl (NotADirectory directory)
  else inr (validate_input_files (collect_md_files_from_directory directory)).

Section Merge.

Variable dest : destination.

(** [output.write(s)] *)
Definition write (s : string) : io unit :=
  fun w =>
    if accepts dest (written w) s
    then (Some tt, {| written := written w ++ s; console := console w |})
    else (None, w).

Variable add_separators : bool.

(** The [for i, filepath in enumerate(files)] loop of
    [merge_markdown_files]; [n] is [len(files)] of the whole list. *)
Fixpoint merge_loop (n i : Z) (files : list string) : io unit :=
  match files with
  | [] => ret tt
  | filepath :: rest =>
      print (Processing filepath) ;;
      content <- read_markdown_file filepath ;;
      (if content =? "" then ret tt
       else
         write ("<!-- Quelle: " ++ filepath ++ " -->" ++ Py.nl ++ Py.nl) ;;
         write content ;;
         (if Py.endswith content Py.nl then ret tt else write Py.nl) ;;
         (if add_separators && (i <? n - 1)%Z
          then write (Py.nl ++ "---" ++ Py.nl ++ Py.nl)
          else ret tt)) ;;
      merge_loop n (i + 1) rest
  end.

(** The outcome of [merge_markdown_files]: the value returned, the text
    of the destination ([None] when it was not opened) and the console.
    The sources are read as they were before the destination was
    opened; the statements on the text written take the output path to
    be none of the sources. *)
Record outcome : Type := {
  returned : bool;
  output : option string;
  printed : list event
}.

Definition merge_markdown_files (files : list string) (output_file : string) : outcome :=
  if opens dest then
    match merge_loop (Z.of_nat (List.length files)) 0 files
            {| written := ""; console := [] |} with
    | (Some _, w) =>
        {| returned := true; output := Some (written w); printed := console w |}
    | (None, w) =>
        {| returned := false; output := Some (written w);
           printed := console w ++ [WriteFailed output_file] |}
    end
  else
    {| returned := false; output := None; printed := [WriteFailed output_file] |}.

(** What the loop writes for one file, and for a list of files from
    index [i] on, when every write goes through: the chunks of
    [merge_loop], in its order. *)
Definition content_of (filepath : string) : string :=
  match fs filepath with
  | Some (File (Some content)) => content
  | _ => ""
  end.

Definition contribution (n i : Z) (filepath : string) : string :=
  let content := content_of filepath in
  if content =? "" then ""
  else ("<!-- Quelle: " ++ filepath ++ " -->" ++ Py.nl ++ Py.nl)
       ++ content
       ++ (if Py.endswith content Py.nl then "" else Py.nl)
       ++ (if add_separators && (i <? n - 1)%Z
           then Py.nl ++ "---" ++ Py.nl ++ Py.nl else "").

Fixpoint contributions (n i : Z) (files : list string) : string :=
  match files with
  | [] => ""
  | filepath :: rest => contribution n i filepath ++ contributions n (i + 1) rest
  end.

(** What the loop prints for one file. *)
Definition read_events (filepath : string) : list event :=
  match fs filepath with
  | Some (File (Some _)) => []
  | None => [ReadNotFound filepath]
  | Some (File None) => [ReadNotUtf8 filepath]
  | Some (Dir _) => [ReadFailed filepath]
  end.

Definition merge_events (files : list string) : list event :=
  flat_map (fun filepath => Processing filepath :: read_events filepath) files.

End Merge.

(** The three tests of [validate_input_files] on one path, and the
    warning of the first that fails. *)
Definition valid (file : string) : bool :=
  exists_ file && isfile file && is_md file.

Definition rejection (file : string) : list event :=
  if negb (exists_ file) then [SkipMissing file]
  else if negb (isfile file) then [SkipNotAFile file]
  else if negb (is_md file) then [SkipNotMarkdown file]
  else [].

End FileSystem.

(** The body of the loop of [collect_md_files_from_directory] on one
    triple, and the function on the tree under a root. *)
Definition collect_triple (t : triple) : list string :=
  let '(root, _, files) := t in
  map (Py.path_join root) (filter is_md (Py.sorted files)).

Definition collect_node (n : node) (root : string) : list string :=
  flat_map collect_triple (os_walk n root).

(** A destination that opens and takes every write. *)
Definition unlimited : destination :=
  {| opens := true; accepts := fun _ _ => true |}.

(** Two files to merge: [A.md] holds [foo] without a line end, [B.md] is
    empty, nothing else exists. *)
Definition fs_foo_empty (path : string) : option node :=
  if path =? "A.md" then Some (File (Some "foo"))
  else if path =? "B.md" then Some (File (Some ""))
  else None.

(** The two files of the merge example: [A.md] holds [foo] without a
    line end, [B.md] holds [bar] and a line end. *)
Definition fs_foo_bar (path : string) : option node :=
  if path =? "A.md" then Some (File (Some "foo"))
  else if path =? "B.md" then Some (File (Some ("bar" ++ Py.nl)))
  else None.

(** The tree of the example: [b.md] and [a.md] in the root, listed in
    that order, and [c.md] in the subdirectory [sub]. *)
Definition tree_example (c1 c2 c3 : option string) : node :=
  Dir [ ("b.md", File c1); ("a.md", File c2);
        ("sub", Dir [ ("c.md", File c3) ]) ].

(** A file system with that tree at [docs] and nothing else. *)
Definition fs_docs (path : string) : option node :=
  if path =? "docs" then Some (tree_example (Some "b") (Some "a") (Some "c"))
  else None.




End Merger.

(* ================================================================== *)
(** * markdown_merger_c_l_i.py: main *)
(* ================================================================== *)

Module Cli.
Import Merger.

(** What [argparse] hands to [main]: one of [-f] (a list of at least one
    path, [nargs='+']) and [-d], the output path and the two flags. *)
Inductive input : Type :=
| Files (files : list string)
| Directory (directory : string).

Record args : Type := {
  arg_input : input;
  arg_output : string;
  arg_no_separators : bool;
  arg_force : bool
}.

(** The lines [main] prints, one for each [print] or [input] call, and
    the lines of the functions it calls. *)
Inductive line : Type :=
| Core (e : event)
| Uncaught                       (* the traceback of an exception nobody catches *)
| FewArguments                   (* Fehler: Mindestens zwei Dateien ... angegeben werden. *)
| Fatal (f : fatal)
| NoValidFiles                   (* Fehler: Keine gültigen Markdown-Dateien gefunden. *)
| FewValidFiles                  (* Fehler: Mindestens zwei gültige ... erforderlich. *)
| Prompt (output_file : string)  (* Ausgabedatei ... existiert bereits. Überschreiben? (j/N): *)
| Aborted                        (* Abgebrochen. *)
| Found (n : nat)                (* Gefundene Dateien (n): *)
| Item (file : string)
| Destination (output_file : string)
| Blank
| Merged (n : nat) (output_file : string)
| Size (bytes : nat)
| MergeError.                    (* Fehler beim Zusammenfügen der Dateien. *)

(** How a run ends: the exit status, the text of the destination
    ([None] when it was not opened) and what was printed. *)
Record run : Type := {
  exit_code : Z;
  destination_text : option string;
  lines : list line
}.

Definition stop (code : Z) (printed : list line) : run :=
  {| exit_code := code; destination_text := None; lines := printed |}.

(** [response.lower() in ['j', 'ja', 'y', 'yes']] *)
Definition affirmative (response : string) : bool :=
  existsb (String.eqb (Py.lower response)) ["j"; "ja"; "y"; "yes"].

(** [os.path.getsize] of a file holding a text in UTF-8: a code point
    below 128 takes one byte, the others below 256 take two. *)
Fixpoint utf8_size (text : string) : nat :=
  match text with
  | EmptyString => 0
  | String c text' =>
      (if (nat_of_ascii c <? 128)%nat then 1 else 2) + utf8_size text'
  end.

Section Main.

Variable fs : string -> option node.
Variable dest : destination.
(** [os.path.exists(args.output)] and the line [input] reads. *)
Variable output_exists : bool.
Variable response : string.

(** A call of a function of the merger from [main], on a console of its
    own: its value and its lines. *)
Definition call {A : Type} (m : io A) : option A * list line :=
  let '(a, w) := m {| written := ""; console := [] |} in
  (a, map Core (console w)).

(** Lines 180 to 196: the input files, or the end of the run.  An empty
    [args.files] is falsy, [args.directory] is then [None] and
    [os.path.exists(None)] raises. *)
Definition collect_input (a : input) : run + (list string * list line) :=
  match a with
  | Files [] => inl (stop 1 [Uncaught])
  | Files files =>
      if (List.length files <? 2)%nat then inl (stop 1 [FewArguments])
      else
        match call (validate_input_files fs files) with
        | (Some input_files, printed) => inr (input_files, printed)
        | (None, printed) => inl (stop 1 (printed ++ [Uncaught]))
        end
  | Directory directory =>
      match main_directory fs directory with
      | inl f => inl (stop 1 [Fatal f])
      | inr validation =>
          match call validation with
          | (Some input_files, printed) => inr (input_files, printed)
          | (None, printed) => inl (stop 1 (printed ++ [Uncaught]))
          end
      end
  end.

(** [main], from line 179 on. *)
Definition main (a : args) : run :=
  match collect_input (arg_input a) with
  | inl r => r
  | inr (input_files, warnings) =>
      match input_files with
      | [] => stop 1 (warnings ++ [NoValidFiles])
      | _ :: _ =>
          if (List.length input_files <? 2)%nat
          then stop 1 (warnings ++ [FewValidFiles])
          else
            let asked := output_exists && negb (arg_force a) in
            let prompt := if asked then [Prompt (arg_output a)] else [] in
            if asked && negb (affirmative response)
            then stop 0 (warnings ++ prompt ++ [Aborted])
            else
              let summary :=
                Found (List.length input_files)
                  :: map Item input_files
                  ++ [Destination (arg_output a); Blank] in
              let r := merge_markdown_files fs dest
                         (negb (arg_no_separators a)) input_files (arg_output a) in
              if returned r then
                {| exit_code := 0;
                   destination_text := output r;
                   lines := warnings ++ prompt ++ summary ++ map Core (printed r)
                            ++ [ Merged (List.length input_files) (arg_output a);
                                 Size (match output r with
                                       | Some text => utf8_size text
                                       | None => 0
                                       end) ] |}
              else
                {| exit_code := 1;
                   destination_text := output r;
                   lines := warnings ++ prompt ++ summary ++ map Core (printed r)
                            ++ [MergeError] |}
      end
  end.

End Main.

End Cli.

(* ================================================================== *)
(** * app.py *)
(* ================================================================== *)

Module App.

Definition ALLOWED_EXTENSIONS : list string :=
  ["md"; "txt"; "yml"; "yaml"; "json"].

(** ['.' in filename] *)
Fixpoint contains_dot (s : string) : bool :=
  match s with
  | EmptyString => false
  | String c s' => Ascii.eqb c "."%char || contains_dot s'
  end.

(** [filename.rsplit('.', 1)]: one piece without a dot, else what is
    before the last dot and what is after it. *)
Fixpoint rsplit_dot (s : string) : list string :=
  match s with
  | EmptyString => [EmptyString]
  | String c s' =>
      match rsplit_dot s' with
      | [tail] =>
          if Ascii.eqb c "."%char then [EmptyString; tail]
          else [String c tail]
      | head :: pieces => String c head :: pieces
      | [] => []
      end
  end.

(** [allowed_file]; the index [1] is only taken when there is a dot. *)
Definition allowed_file (filename : string) : bool :=
  contains_dot filename
  && match rsplit_dot filename with
     | _ :: extension :: _ =>
         existsb (String.eqb (Py.lower extension)) ALLOWED_EXTENSIONS
     | _ => false
     end.

End App.

(* ================================================================== *)
(** * Notions used in the statements *)
(* ================================================================== *)

Module Notions.
Import Config Merger.

(** A key without a dot, as a dotted path can name it. *)
Definition plain_key (k : string) : bool := negb (App.contains_dot k).

(** The dotted path of a list of keys: [".".join(keys)]. *)
Fixpoint dotted (keys : list string) : string :=
  match keys with
  | [] => ""
  | [k] => k
  | k :: keys' => k ++ "." ++ dotted keys'
  end.

(** The override document that binds [v] under a key path and nothing
    else: [{k1: {k2: ... {kn: v}}}]. *)
Fixpoint nest (keys : list string) (v : value) : value :=
  match keys with
  | [] => v
  | k :: keys' => VDict [(k, nest keys' v)]
  end.

(** A document whose mappings, at every depth, bind each key once, as
    the mappings a parser builds do. *)
Fixpoint unique_keys (v : value) : Prop :=
  match v with
  | VDict items =>
      NoDup (map fst items)
      /\ (fix all (l : list (string * value)) : Prop :=
            match l with
            | [] => True
            | (_, x) :: l' => unique_keys x /\ all l'
            end) items
  | _ => True
  end.

(** A tree already holds an override: every value of the override that
    is no mapping is bound under its key, and every mapping of the
    override is held by the mapping bound under its key. *)
Fixpoint absorbed (update : value) (base : dict) {struct update} : Prop :=
  match update with
  | VDict items =>
      (fix all (l : list (string * value)) : Prop :=
         match l with
         | [] => True
         | (k, x) :: l' =>
             match x with
             | VDict _ =>
                 exists sub, dict_get k base = Some (VDict sub) /\ absorbed x sub
             | _ => dict_get k base = Some x
             end
             /\ all l'
         end) items
  | _ => True
  end.

(** Induction on documents, with the hypothesis for the values bound in
    a mapping. *)
Fixpoint value_items_ind (P : value -> Prop)
    (HNone : P VNone) (HBool : forall b, P (VBool b))
    (HInt : forall n, P (VInt n)) (HStr : forall s, P (VStr s))
    (HList : forall l, P (VList l))
    (HDict : forall items, Forall (fun item => P (snd item)) items -> P (VDict items))
    (v : value) {struct v} : P v :=
  match v with
  | VNone => HNone
  | VBool b => HBool b
  | VInt n => HInt n
  | VStr s => HStr s
  | VList l => HList l
  | VDict items =>
      HDict items
        ((fix all (l : list (string * value)) : Forall (fun item => P (snd item)) l :=
            match l with
            | [] => Forall_nil _
            | (k, x) :: l' =>
                Forall_cons (k, x)
                  (value_items_ind P HNone HBool HInt HStr HList HDict x) (all l')
            end) items)
  end.

(** Induction on trees of files, with the hypothesis for the entries of
    a directory. *)
Fixpoint node_listing_ind (P : node -> Prop)
    (HFile : forall content, P (File content))
    (HDir : forall listing, Forall (fun entry => P (snd entry)) listing -> P (Dir listing))
    (n : node) {struct n} : P n :=
  match n with
  | File content => HFile content
  | Dir listing =>
      HDir listing
        ((fix all (l : list (string * node)) : Forall (fun entry => P (snd entry)) l :=
            match l with
            | [] => Forall_nil _
            | (name, child) :: l' =>
                Forall_cons (name, child)
                  (node_listing_ind P HFile HDir child) (all l')
            end) listing)
  end.

(** A source the merge does not skip: its read gives a text that is not
    empty. *)
Definition survives (fs : string -> option node) (filepath : string) : bool :=
  negb (content_of fs filepath =? "").

(** The paths [main] hands to the validation: the paths given with [-f],
    or the files collected under the directory given with [-d]. *)
Definition candidates (fs : string -> option node) (a : Cli.input) : list string :=
  match a with
  | Cli.Files files => files
  | Cli.Directory directory => collect_md_files_from_directory fs directory
  end.

(** [-f B.md A.md -o out.md] and [-f A.md notes.txt -o out.md]. *)
Definition args_two_files : Cli.args :=
  {| Cli.arg_input := Cli.Files ["B.md"; "A.md"];
     Cli.arg_output := "out.md";
     Cli.arg_no_separators := false;
     Cli.arg_force := false |}.

Definition args_one_valid : Cli.args :=
  {| Cli.arg_input := Cli.Files ["A.md"; "notes.txt"];
     Cli.arg_output := "out.md";
     Cli.arg_no_separators := false;
     Cli.arg_force := false |}.

(** The last file of a list is not skipped (an empty list has none). *)
Fixpoint last_survives (fs : string -> option node) (files : list string) : bool :=
  match files with
  | [] => true
  | [filepath] => survives fs filepath
  | _ :: rest => last_survives fs rest
  end.



End Notions.

(* ================================================================== *)
(** * Facts about the Python primitives *)
(* ================================================================== *)

Module PyFacts.
Import Py.

Lemma str_le_trans a b c :
  str_le a b = true -> str_le b c = true -> str_le a c = true.
Proof.
  unfold str_le, String.leb. revert b c.
  induction a as [|x a IH]; intros [|y b] [|z c]; simpl; try congruence.
  unfold Ascii.compare.
  destruct (N.compare_spec (N_of_ascii x) (N_of_ascii y)) as [Hxy|Hxy|Hxy];
    destruct (N.compare_spec (N_of_ascii y) (N_of_ascii z)) as [Hyz|Hyz|Hyz];
    destruct (N.compare_spec (N_of_ascii x) (N_of_ascii z)) as [Hxz|Hxz|Hxz];
    try congruence; try lia.
  apply IH.
Qed.

Lemma str_le_antisym a b : str_le a b = true -> str_le b a = true -> a = b.
Proof. apply String.leb_antisym. Qed.

Lemma str_le_false a b : str_le a b = false -> str_le b a = true.
Proof.
  intros H. destruct (String.leb_total a b) as [H'|H']; [|exact H'].
  unfold str_le in H. congruence.
Qed.

Section SortOnFacts.
Context {A : Type} (key : A -> string).

Lemma insert_on_perm x l : Permutation (insert_on key x l) (x :: l).
Proof.
  induction l as [|y l IH]; simpl.
  - apply Permutation_refl.
  - destruct (str_le (key x) (key y)).
    + apply Permutation_refl.
    + eapply perm_trans; [apply perm_skip, IH | apply perm_swap].
Qed.

Lemma sort_on_perm l : Permutation (sort_on key l) l.
Proof.
  induction l as [|x l IH]; simpl.
  - constructor.
  - eapply perm_trans; [apply insert_on_perm | apply perm_skip, IH].
Qed.

Lemma insert_on_sorted x l :
  StronglySorted (key_le key) l -> StronglySorted (key_le key) (insert_on key x l).
Proof.
  induction 1 as [|y l Hl IH Hy]; simpl.
  - repeat constructor.
  - destruct (str_le (key x) (key y)) eqn:E.
    + constructor; [constructor; assumption|].
      constructor; [exact E|].
      eapply Forall_impl; [|exact Hy].
      intros z Hz. unfold key_le in *. eapply str_le_trans; eassumption.
    + constructor; [exact IH|].
      eapply Permutation_Forall; [apply Permutation_sym, insert_on_perm|].
      constructor; [apply str_le_false, E | exact Hy].
Qed.

Lemma sort_on_sorted l : StronglySorted (key_le key) (sort_on key l).
Proof.
  induction l as [|x l IH]; simpl.
  - constructor.
  - apply insert_on_sorted, IH.
Qed.

End SortOnFacts.

(** Sorting commutes with a map that is taken into account by the key. *)
Lemma insert_on_map {A B : Type} (key : B -> string) (f : A -> B) x l :
  insert_on key (f x) (map f l) = map f (insert_on (fun a => key (f a)) x l).
Proof.
  induction l as [|y l IH]; simpl; [reflexivity|].
  destruct (str_le (key (f x)) (key (f y))); simpl; congruence.
Qed.

Lemma sort_on_map {A B : Type} (key : B -> string) (f : A -> B) l :
  sort_on key (map f l) = map f (sort_on (fun a => key (f a)) l).
Proof.
  induction l as [|x l IH]; simpl; [reflexivity|].
  rewrite IH. apply insert_on_map.
Qed.

Lemma sort_on_ext {A : Type} (k1 k2 : A -> string) l :
  (forall a, k1 a = k2 a) -> sort_on k1 l = sort_on k2 l.
Proof.
  intros E. induction l as [|x l IH]; simpl; [reflexivity|].
  rewrite IH. generalize (sort_on k2 l). intros m.
  induction m as [|y m IHm]; simpl; [reflexivity|].
  rewrite !E, IHm. reflexivity.
Qed.

(** On strings the order is antisymmetric, so a sorted list is determined
    by its elements. *)
Lemma sorted_ascending l : ascending (sorted l).
Proof. apply (sort_on_sorted (fun s => s)). Qed.

Lemma sorted_perm l : Permutation (sorted l) l.
Proof. apply sort_on_perm. Qed.

Lemma ascending_perm_eq l1 l2 :
  ascending l1 -> ascending l2 -> Permutation l1 l2 -> l1 = l2.
Proof.
  unfold ascending. intros H1. revert l2.
  induction H1 as [|x l1 Hl1 IH Hx]; intros l2 H2 P.
  - apply Permutation_nil in P. congruence.
  - destruct H2 as [|y l2 Hl2 Hy].
    + apply Permutation_sym, Permutation_nil in P. discriminate.
    + assert (x = y) as ->.
      { assert (In x (y :: l2)) as Ix
          by (eapply Permutation_in; [exact P | left; reflexivity]).
        assert (In y (x :: l1)) as Iy
          by (eapply Permutation_in; [apply Permutation_sym, P | left; reflexivity]).
        destruct Ix as [->|Ix]; [reflexivity|].
        destruct Iy as [->|Iy]; [reflexivity|].
        rewrite Forall_forall in Hx, Hy.
        apply str_le_antisym; [apply Hx, Iy | apply Hy, Ix]. }
      f_equal. apply IH; [exact Hl2|].
      eapply Permutation_cons_inv, P.
Qed.

Lemma sorted_of_perm l1 l2 : Permutation l1 l2 -> sorted l1 = sorted l2.
Proof.
  intros P. apply ascending_perm_eq; try apply sorted_ascending.
  eapply perm_trans; [apply sorted_perm|].
  eapply perm_trans; [exact P|]. apply Permutation_sym, sorted_perm.
Qed.

Lemma sorted_filter_comm (p : string -> bool) l :
  sorted (filter p l) = filter p (sorted l).
Proof.
  apply ascending_perm_eq.
  - apply sorted_ascending.
  - unfold ascending. generalize (sorted_ascending l). generalize (sorted l).
    intros m Hm. induction Hm as [|x m Hm IH Hx]; simpl; [constructor|].
    destruct (p x); [|exact IH].
    constructor; [exact IH|].
    rewrite Forall_forall in *. intros y Hy. apply Hx.
    apply filter_In in Hy. tauto.
  - eapply perm_trans; [apply sorted_perm|].
    (* filtering respects permutations *)
    assert (forall a b : list string, Permutation a b ->
              Permutation (filter p a) (filter p b)) as FP.
    { induction 1; simpl.
      - constructor.
      - destruct (p x); [apply perm_skip|]; assumption.
      - destruct (p x), (p y); try apply Permutation_refl. apply perm_swap.
      - eapply perm_trans; eassumption. }
    apply FP, Permutation_sym, sorted_perm.
Qed.

End PyFacts.

(* ================================================================== *)
(** * The configuration tree *)
(* ================================================================== *)

Module ConfigFacts.
Import Config.

Lemma dict_get_set_same k v d : dict_get k (dict_set k v d) = Some v.
Proof.
  induction d as [|[k' w] d IH]; simpl.
  - rewrite String.eqb_refl. reflexivity.
  - destruct (k' =? k) eqn:E; simpl; rewrite E; [reflexivity | exact IH].
Qed.

Lemma dict_get_set_other k k' v d :
  k' <> k -> dict_get k (dict_set k' v d) = dict_get k d.
Proof.
  intros N. induction d as [|[k0 w] d IH]; simpl.
  - apply String.eqb_neq in N. rewrite N. reflexivity.
  - destruct (k0 =? k') eqn:E; simpl.
    + apply String.eqb_eq in E. subst k0.
      apply String.eqb_neq in N. rewrite N. reflexivity.
    + destruct (k0 =? k); [reflexivity | exact IH].
Qed.

Lemma deep_merge_items_nil base : deep_merge_items [] base = base.
Proof. reflexivity. Qed.

Lemma deep_merge_items_cons key v rest base :
  deep_merge_items ((key, v) :: rest) base
  = deep_merge_items rest (deep_merge_step key v base).
Proof. reflexivity. Qed.

(** A turn of the loop for another key leaves the entry of [k] alone. *)
Lemma step_other k key v base :
  key <> k -> dict_get k (deep_merge_step key v base) = dict_get k base.
Proof.
  intros N. unfold deep_merge_step.
  destruct v; try (apply dict_get_set_other; exact N).
  destruct (dict_get key base) as [[]|]; apply dict_get_set_other; exact N.
Qed.

(** A turn of the loop always leaves its key bound. *)
Lemma step_same key v base :
  exists v', dict_get key (deep_merge_step key v base) = Some v'.
Proof.
  unfold deep_merge_step.
  destruct v; try (eexists; apply dict_get_set_same).
  destruct (dict_get key base) as [[]|]; eexists; apply dict_get_set_same.
Qed.

Lemma untouched_key k items base :
  ~ In k (map fst items) ->
  dict_get k (deep_merge_items items base) = dict_get k base.
Proof.
  revert base. induction items as [|[key v] rest IH]; intros base N.
  - reflexivity.
  - rewrite deep_merge_items_cons, IH.
    + apply step_other. intros ->. apply N. left. reflexivity.
    + intros I. apply N. right. exact I.
Qed.

Lemma has_path_cons_dict k keys v :
  has_path (k :: keys) v = true -> exists d, v = VDict d.
Proof.
  destruct v; simpl; try discriminate. eauto.
Qed.

Lemma descends_cons k k2 ks items :
  descends (k :: k2 :: ks) (VDict items)
  = forallb
      (fun item : string * value =>
         negb (fst item =? k)
         || (is_dict (snd item) && descends (k2 :: ks) (snd item)))
      items.
Proof. reflexivity. Qed.

Lemma path_kept keys : forall items base,
  has_path keys (VDict base) = true ->
  descends keys (VDict items) = true ->
  has_path keys (VDict (deep_merge_items items base)) = true.
Proof.
  induction keys as [|k ks IH]; [reflexivity|].
  induction items as [|[key v] rest IHrest]; intros base Hbase Hdesc.
  - exact Hbase.
  - rewrite deep_merge_items_cons. apply IHrest.
    + simpl in Hbase |- *.
      destruct (String.eqb_spec key k) as [->|N].
      * destruct (dict_get k base) as [sub|] eqn:G; [|discriminate].
        destruct ks as [|k2 ks'].
        { destruct (step_same k v base) as [v' ->]. reflexivity. }
        rewrite descends_cons in Hdesc. cbn [forallb fst snd] in Hdesc.
        rewrite String.eqb_refl in Hdesc. cbn [negb orb] in Hdesc.
        apply andb_prop in Hdesc. destruct Hdesc as [Hv _].
        apply andb_prop in Hv. destruct Hv as [Hd Hv].
        destruct v as [| | | | |u]; try discriminate.
        destruct (has_path_cons_dict _ _ _ Hbase) as [s ->].
        unfold deep_merge_step. rewrite G, dict_get_set_same.
        apply (IH u s Hbase Hv).
      * rewrite (step_other k key v base N). exact Hbase.
    + destruct ks as [|k2 ks']; [reflexivity|].
      rewrite descends_cons in Hdesc |- *. cbn [forallb] in Hdesc.
      apply andb_prop in Hdesc. tauto.
Qed.

Lemma key_kept k items base :
  dict_mem k base = true -> dict_mem k (deep_merge_items items base) = true.
Proof.
  intros M.
  assert (has_path [k] (VDict (deep_merge_items items base)) = true) as H.
  { apply path_kept; [|reflexivity].
    unfold dict_mem in M. simpl. destruct (dict_get k base); [reflexivity | discriminate]. }
  unfold dict_mem. simpl in H.
  destruct (dict_get k (deep_merge_items items base)); [reflexivity | discriminate].
Qed.

(** C4, as the code has it: merging an override into a tree never
    removes a key of the tree, leaves the entry of every key the override
    does not mention as it was, and keeps a value under every key path of
    the tree along which the override binds mappings only (a mapping of
    the tree is replaced as a whole by an override value that is no
    mapping).  The override of [separators.between_files] alone changes
    that value of the default tree and nothing else. *)
Theorem deep_merge_keeps_descended_paths :
  (forall (base : dict) (update : value) (merged : dict),
     deep_merge base update = Ok merged ->
     (forall keys,
        has_path keys (VDict base) = true ->
        descends keys update = true ->
        has_path keys (VDict merged) = true)
     /\ (forall k, dict_mem k base = true -> dict_mem k merged = true)
     /\ (forall items k,
           update = VDict items -> ~ In k (map fst items) ->
           dict_get k merged = dict_get k base))
  /\ deep_merge load_default_config override_between_files
     = Ok default_with_between_files.
Proof.
  split; [|reflexivity].
  intros base update merged H.
  destruct update as [| | | | |items]; try discriminate.
  injection H as <-. fold (deep_merge_items items base).
  split; [|split].
  - intros keys Hb Hd. apply path_kept; assumption.
  - intros k. apply key_kept.
  - intros items' k E N. injection E as <-. apply untouched_key, N.
Qed.

Lemma deep_merge_keeps_descended_paths_witness :
  has_path ["separators"; "header_format"] (VDict default_with_between_files) = true
  /\ dict_mem "filters" default_with_between_files = true
  /\ dict_get "output" default_with_between_files
     = dict_get "output" load_default_config.
Proof.
  destruct (proj1 deep_merge_keeps_descended_paths
              load_default_config override_between_files
              default_with_between_files eq_refl) as (H1 & H2 & H3).
  split; [|split].
  - apply (H1 ["separators"; "header_format"]); reflexivity.
  - apply (H2 "filters"). reflexivity.
  - apply (H3 [("separators", VDict [("between_files", VStr "***")])] "output").
    + reflexivity.
    + intros [H|[]]. discriminate H.
Defined.

(** C4 as stated fails: an override that binds a string under
    [separators] replaces the whole mapping, and the default key path
    [separators.between_files] has no value any more. *)
Lemma scalar_override_drops_default_paths :
  deep_merge load_default_config (VDict [("separators", VStr "none")])
    = Ok (dict_set "separators" (VStr "none") load_default_config)
  /\ has_path ["separators"; "between_files"] (VDict load_default_config) = true
  /\ has_path ["separators"; "between_files"]
       (VDict (dict_set "separators" (VStr "none") load_default_config)) = false
  /\ get load_default_config "separators.between_files" VNone = VStr "---"
  /\ get (dict_set "separators" (VStr "none") load_default_config)
       "separators.between_files" VNone = VNone.
Proof.
  repeat split; reflexivity.
Qed.

Section LoadConfigFileFacts.

Variable open_utf8 : string -> source.
Variable yaml_safe_load : string -> option value.
Variable json_load : string -> option value.

Lemma read_user_config_supported config_file :
  supported config_file = true ->
  read_user_config open_utf8 yaml_safe_load json_load config_file
  = parse_with (parser_for yaml_safe_load json_load config_file) (open_utf8 config_file).
Proof.
  unfold supported, read_user_config, parser_for. intros S.
  destruct (Py.endswith config_file ".yaml" || Py.endswith config_file ".yml").
  - destruct (open_utf8 config_file); reflexivity.
  - simpl in S. rewrite S. destruct (open_utf8 config_file); reflexivity.
Qed.

Lemma read_user_config_unsupported config_file :
  supported config_file = false ->
  exists e, read_user_config open_utf8 yaml_safe_load json_load config_file = Raise e.
Proof.
  unfold supported, read_user_config. intros S.
  apply orb_false_elim in S. destruct S as [-> ->].
  destruct (open_utf8 config_file); eexists; reflexivity.
Qed.

(** C6: when the override file cannot be opened or decoded, has a suffix
    other than .yaml, .yml and .json, is rejected by its parser, or
    parses to something that is no mapping, [_load_config_file] returns
    with the tree it was given and one warning; [MergerConfig] built on
    such a file holds the default tree. *)
Theorem broken_override_keeps_defaults :
  forall config_file : string,
    open_utf8 config_file = Unopenable
    \/ open_utf8 config_file = Undecodable
    \/ supported config_file = false
    \/ (exists text,
          open_utf8 config_file = Text text
          /\ parser_for yaml_safe_load json_load config_file text = None)
    \/ (exists text document,
          open_utf8 config_file = Text text
          /\ parser_for yaml_safe_load json_load config_file text = Some document
          /\ is_dict document = false) ->
    exists e,
      (forall config,
         load_config_file open_utf8 yaml_safe_load json_load config config_file
         = (config, [e]))
      /\ (config_file <> "" ->
          init open_utf8 yaml_safe_load json_load (Some config_file)
          = (load_default_config, [e])).
Proof.
  intros f H.
  assert (exists e, (read_user_config open_utf8 yaml_safe_load json_load f = Raise e)
                    \/ (exists document,
                          read_user_config open_utf8 yaml_safe_load json_load f = Ok document
                          /\ is_dict document = false /\ e = NotAMapping)) as [e He].
  { destruct (supported f) eqn:S.
    - rewrite (read_user_config_supported f S).
      destruct H as [H|[H|[H|[(text & H & P)|(text & document & H & P & D)]]]];
        try discriminate; rewrite H; simpl; try rewrite P; eauto 6.
    - destruct (read_user_config_unsupported f S) as [e E]. eauto. }
  exists e.
  assert (forall config,
            load_config_file open_utf8 yaml_safe_load json_load config f = (config, [e])) as L.
  { intros config. unfold load_config_file.
    destruct He as [->|(document & -> & D & ->)]; [reflexivity|].
    destruct document; try discriminate; reflexivity. }
  split; [exact L|].
  intros N. unfold init. apply String.eqb_neq in N. rewrite N. apply L.
Qed.

End LoadConfigFileFacts.

Lemma broken_override_keeps_defaults_witness :
  exists e,
    (forall config,
       load_config_file (fun _ => Text "{") (fun _ => None) (fun _ => None)
         config "merger.json" = (config, [e]))
    /\ init (fun _ => Text "{") (fun _ => None) (fun _ => None) (Some "merger.json")
       = (load_default_config, [e]).
Proof.
  destruct (broken_override_keeps_defaults
              (fun _ => Text "{") (fun _ => None) (fun _ => None) "merger.json")
    as (e & H1 & H2).
  - right. right. right. left. exists "{". split; reflexivity.
  - exists e. split; [exact H1|]. apply H2. discriminate.
Defined.

End ConfigFacts.

(* ================================================================== *)
(** * The merge loop *)
(* ================================================================== *)

Module MergeFacts.
Import Py Merger.

Lemma append_nil_r (s : string) : s ++ "" = s.
Proof. induction s as [|c s IH]; simpl; congruence. Qed.

Lemma append_assoc (a b c : string) : (a ++ b) ++ c = a ++ (b ++ c).
Proof. induction a as [|x a IH]; simpl; congruence. Qed.

Ltac flatten_appends :=
  repeat first [rewrite append_assoc | rewrite append_nil_r | progress cbn [append]].

Lemma world_eta (w : world) : {| written := written w; console := console w |} = w.
Proof. destruct w; reflexivity. Qed.

Section Loop.

Variable fs : string -> option node.
Variable dest : destination.
Variable add_separators : bool.

(** Reading never raises: it returns the content or the empty string. *)
Lemma read_markdown_file_spec filepath w :
  read_markdown_file fs filepath w
  = (Some (content_of fs filepath),
     {| written := written w; console := console w ++ read_events fs filepath |}).
Proof.
  unfold read_markdown_file, content_of, read_events.
  destruct (fs filepath) as [[[content|]|listing]|]; simpl;
    try reflexivity.
  unfold ret. rewrite app_nil_r, world_eta. reflexivity.
Qed.

(** A file whose read gives the empty string: the loop goes on with
    nothing written, whatever the destination would accept. *)
Lemma merge_loop_skip n i filepath rest w :
  content_of fs filepath = "" ->
  merge_loop fs dest add_separators n i (filepath :: rest) w
  = merge_loop fs dest add_separators n (i + 1) rest
      {| written := written w;
         console := console w ++ Processing filepath :: read_events fs filepath |}.
Proof.
  intros E. cbn [merge_loop]. unfold bind at 1. unfold print.
  unfold bind at 1. rewrite read_markdown_file_spec. cbn [written console].
  rewrite E. cbn. unfold bind, ret. rewrite <- app_assoc. reflexivity.
Qed.

Hypothesis accepting : forall written chunk, accepts dest written chunk = true.

Lemma write_spec s w :
  write dest s w = (Some tt, {| written := written w ++ s; console := console w |}).
Proof. unfold write. rewrite accepting. reflexivity. Qed.

Lemma bind_some {A B : Type} (m : io A) (k : A -> io B) w a w' :
  m w = (Some a, w') -> bind m k w = k a w'.
Proof. unfold bind. intros ->. reflexivity. Qed.

(** The writes for a file that is not skipped. *)
Lemma write_chunk_spec n i filepath content w :
  (write dest ("<!-- Quelle: " ++ filepath ++ " -->" ++ nl ++ nl) ;;
   write dest content ;;
   (if endswith content nl then ret tt else write dest nl) ;;
   (if add_separators && (i <? n - 1)%Z
    then write dest (nl ++ "---" ++ nl ++ nl)
    else ret tt)) w
  = (Some tt,
     {| written :=
          written w
          ++ ("<!-- Quelle: " ++ filepath ++ " -->" ++ nl ++ nl)
          ++ content
          ++ (if endswith content nl then "" else nl)
          ++ (if add_separators && (i <? n - 1)%Z
              then nl ++ "---" ++ nl ++ nl else "");
        console := console w |}).
Proof.
  erewrite bind_some by apply write_spec.
  erewrite bind_some by apply write_spec.
  cbn [written console].
  destruct (endswith content nl); destruct (add_separators && (i <? n - 1)%Z).
  - erewrite bind_some by reflexivity. rewrite write_spec. cbn [written console].
    flatten_appends. reflexivity.
  - erewrite bind_some by reflexivity. unfold ret. cbn [written console].
    flatten_appends. reflexivity.
  - erewrite bind_some by apply write_spec. rewrite write_spec. cbn [written console].
    flatten_appends. reflexivity.
  - erewrite bind_some by apply write_spec. unfold ret. cbn [written console].
    flatten_appends. reflexivity.
Qed.

Lemma merge_loop_spec n files : forall i w,
  merge_loop fs dest add_separators n i files w
  = (Some tt,
     {| written := written w ++ contributions fs add_separators n i files;
        console := console w ++ merge_events fs files |}).
Proof.
  induction files as [|filepath rest IH]; intros i w.
  - cbn. unfold ret. rewrite append_nil_r, app_nil_r, world_eta. reflexivity.
  - destruct (content_of fs filepath =? "") eqn:E.
    + rewrite merge_loop_skip by (apply String.eqb_eq, E).
      rewrite IH. cbn [written console contributions merge_events flat_map].
      unfold contribution. rewrite E. cbn [append].
      rewrite <- app_assoc. reflexivity.
    + cbn [merge_loop].
      erewrite bind_some by reflexivity.
      erewrite bind_some by apply read_markdown_file_spec.
      rewrite E.
      erewrite bind_some by apply write_chunk_spec.
      rewrite IH. cbn [written console contributions merge_events flat_map].
      unfold contribution. rewrite E.
      rewrite <- ?app_assoc. flatten_appends. reflexivity.
Qed.

Lemma merge_spec files output_file :
  opens dest = true ->
  merge_markdown_files fs dest add_separators files output_file
  = {| returned := true;
       output := Some (contributions fs add_separators
                         (Z.of_nat (List.length files)) 0 files);
       printed := merge_events fs files |}.
Proof.
  intros O. unfold merge_markdown_files. rewrite O, merge_loop_spec. reflexivity.
Qed.

Lemma merge_loop_all_skipped n files : forall i w,
  (forall filepath, In filepath files -> content_of fs filepath = "") ->
  merge_loop fs dest add_separators n i files w
  = (Some tt,
     {| written := written w; console := console w ++ merge_events fs files |}).
Proof.
  induction files as [|filepath rest IH]; intros i w H.
  - cbn. unfold ret. rewrite app_nil_r, world_eta. reflexivity.
  - rewrite merge_loop_skip by (apply H; left; reflexivity).
    rewrite IH by (intros f I; apply H; right; exact I).
    cbn [written console merge_events flat_map].
    rewrite <- app_assoc. reflexivity.
Qed.

End Loop.





(** C2, the code at the failing input: [B.md] is skipped as empty, and
    the separator still follows the contribution of [A.md], the last
    file that wrote anything. *)
Theorem separator_after_last_surviving_file :
  merge_markdown_files fs_foo_empty unlimited true ["A.md"; "B.md"] "out.md"
  = {| returned := true;
       output := Some ("<!-- Quelle: A.md -->" ++ nl ++ nl
                       ++ "foo" ++ nl
                       ++ nl ++ "---" ++ nl ++ nl);
       printed := [Processing "A.md"; Processing "B.md"] |}.
Proof. reflexivity. Qed.



(** C9: once the destination is open, the merge returns true when every
    write goes through, whatever the files are; and when every source is
    skipped (unreadable or empty) nothing is written at all, so the merge
    returns true and the destination is left empty. *)
Theorem merge_succeeds_without_write_error :
  forall (fs : string -> option node) (dest : destination)
         (add_separators : bool) (files : list string) (output_file : string),
    opens dest = true ->
    ((forall written chunk, accepts dest written chunk = true) ->
     returned (merge_markdown_files fs dest add_separators files output_file) = true)
    /\ ((forall filepath, In filepath files -> content_of fs filepath = "") ->
        returned (merge_markdown_files fs dest add_separators files output_file) = true
        /\ output (merge_markdown_files fs dest add_separators files output_file)
           = Some "").
Proof.
  intros fs dest sep files output_file O. split.
  - intros A. rewrite merge_spec by assumption. reflexivity.
  - intros H. unfold merge_markdown_files.
    rewrite O, merge_loop_all_skipped by exact H. split; reflexivity.
Qed.

Lemma merge_succeeds_without_write_error_witness :
  returned (merge_markdown_files fs_foo_empty unlimited
              true ["B.md"; "C.md"] "out.md") = true
  /\ (returned (merge_markdown_files fs_foo_empty unlimited
                  true ["B.md"; "C.md"] "out.md") = true
      /\ output (merge_markdown_files fs_foo_empty unlimited
                   true ["B.md"; "C.md"] "out.md") = Some "").
Proof.
  destruct (merge_succeeds_without_write_error fs_foo_empty unlimited
              true ["B.md"; "C.md"] "out.md" eq_refl) as [H1 H2].
  split.
  - apply H1. intros written chunk. reflexivity.
  - apply H2. intros filepath [<-|[<-|[]]]; reflexivity.
Defined.

(** Nothing but skipped sources, and a destination that would refuse any
    write: the merge still returns true and leaves it empty. *)
Example all_skipped_refusing_destination :
  merge_markdown_files fs_foo_empty
    {| opens := true; accepts := fun _ _ => false |}
    true ["B.md"; "C.md"] "out.md"
  = {| returned := true; output := Some "";
       printed := [Processing "B.md"; Processing "C.md"; ReadNotFound "C.md"] |}.
Proof. reflexivity. Qed.

(** A destination that does not open, or that refuses a write: the
    merge returns false. *)
Example refusing_destination_fails :
  returned (merge_markdown_files fs_foo_bar
              {| opens := true; accepts := fun _ _ => false |}
              true ["A.md"; "B.md"] "out.md") = false
  /\ merge_markdown_files fs_foo_bar
       {| opens := false; accepts := fun _ _ => true |}
       true ["A.md"; "B.md"] "out.md"
     = {| returned := false; output := None; printed := [WriteFailed "out.md"] |}.
Proof. split; reflexivity. Qed.

(** C10: a source that is read and is empty adds nothing: the loop goes
    on to the next file with the destination text as it was and no
    write attempted, for every destination, position and separator
    setting; the merge has no configuration to look at.  The read itself
    gives the same empty string as the read of a missing file. *)
Theorem empty_file_contributes_nothing :
  forall (fs : string -> option node) (dest : destination)
         (add_separators : bool) (n i : Z)
         (filepath : string) (rest : list string) (w : world),
    fs filepath = Some (File (Some "")) ->
    merge_loop fs dest add_separators n i (filepath :: rest) w
    = merge_loop fs dest add_separators n (i + 1) rest
        {| written := written w; console := console w ++ [Processing filepath] |}
    /\ contribution fs add_separators n i filepath = ""
    /\ forall missing,
         fs missing = None ->
         fst (read_markdown_file fs filepath w) = fst (read_markdown_file fs missing w).
Proof.
  intros fs dest sep n i filepath rest w H.
  assert (content_of fs filepath = "") as E by (unfold content_of; rewrite H; reflexivity).
  split; [|split].
  - rewrite merge_loop_skip by exact E.
    unfold read_events. rewrite H. reflexivity.
  - unfold contribution. rewrite E. reflexivity.
  - intros missing M. rewrite !read_markdown_file_spec. cbn [fst].
    unfold content_of. rewrite H, M. reflexivity.
Qed.

Lemma empty_file_contributes_nothing_witness :
  merge_loop fs_foo_empty unlimited true 2 1 ["B.md"]
    {| written := "text"; console := [] |}
  = (Some tt, {| written := "text"; console := [Processing "B.md"] |})
  /\ contribution fs_foo_empty true 2 1 "B.md" = ""
  /\ fst (read_markdown_file fs_foo_empty "B.md" {| written := "text"; console := [] |})
     = fst (read_markdown_file fs_foo_empty "C.md" {| written := "text"; console := [] |}).
Proof.
  destruct (empty_file_contributes_nothing fs_foo_empty unlimited true 2 1
              "B.md" [] {| written := "text"; console := [] |} eq_refl)
    as (H1 & H2 & H3).
  split; [rewrite H1; reflexivity|]. split; [exact H2|].
  apply (H3 "C.md"). reflexivity.
Defined.

End MergeFacts.

(* ================================================================== *)
(** * Collection and validation *)
(* ================================================================== *)

Module CollectFacts.
Import Py PyFacts Merger.

Section Validate.

Variable fs : string -> option node.

Lemma validate_loop_spec files : forall valid_files w,
  validate_loop fs files valid_files w
  = (Some (valid_files ++ filter (valid fs) files)%list,
     {| written := written w;
        console := console w ++ flat_map (rejection fs) files |}).
Proof.
  induction files as [|file rest IH]; intros valid_files w.
  - cbn. unfold ret. rewrite !app_nil_r. destruct w; reflexivity.
  - cbn [validate_loop filter flat_map]. unfold valid at 1, rejection at 1.
    destruct (exists_ fs file); cbn [negb andb];
      [destruct (isfile fs file); cbn [negb andb];
       [destruct (is_md file); cbn [negb]|]|].
    + rewrite IH. rewrite <- app_assoc. reflexivity.
    + unfold bind, print. rewrite IH. cbn [written console].
      rewrite <- app_assoc. reflexivity.
    + unfold bind, print. rewrite IH. cbn [written console].
      rewrite <- app_assoc. reflexivity.
    + unfold bind, print. rewrite IH. cbn [written console].
      rewrite <- app_assoc. reflexivity.
Qed.

Lemma filter_perm (p : string -> bool) (a b : list string) :
  Permutation a b -> Permutation (filter p a) (filter p b).
Proof.
  induction 1 as [|x a b P IH|x y a|a b c P1 IH1 P2 IH2]; simpl.
  - constructor.
  - destruct (p x); [apply perm_skip|]; exact IH.
  - destruct (p x), (p y); try apply Permutation_refl. apply perm_swap.
  - eapply perm_trans; eassumption.
Qed.

(** C5: [validate_input_files] returns the input paths that exist, are
    files and end in [.md] whatever the case, each as often as it was
    given, in ascending order of the path strings; it prints one warning
    for each path it rejects and none for the others, goes through the
    whole list, and its result does not depend on the order of the
    input. *)
Theorem validate_returns_sorted_valid_files :
  forall (files : list string) (w : world),
    validate_input_files fs files w
    = (Some (sorted (filter (valid fs) files)),
       {| written := written w;
          console := console w ++ flat_map (rejection fs) files |})
    /\ ascending (sorted (filter (valid fs) files))
    /\ Permutation (sorted (filter (valid fs) files)) (filter (valid fs) files)
    /\ (forall file,
          List.length (rejection fs file) = if valid fs file then 0 else 1)
    /\ (forall files',
          Permutation files files' ->
          fst (validate_input_files fs files' w)
          = fst (validate_input_files fs files w)).
Proof.
  intros files w.
  assert (forall l, validate_input_files fs l w
                    = (Some (sorted (filter (valid fs) l)),
                       {| written := written w;
                          console := console w ++ flat_map (rejection fs) l |})) as V.
  { intros l. unfold validate_input_files, bind.
    rewrite validate_loop_spec. reflexivity. }
  split; [apply V|].
  split; [apply sorted_ascending|].
  split; [apply sorted_perm|].
  split.
  - intros file. unfold rejection, valid.
    destruct (exists_ fs file), (isfile fs file), (is_md file); reflexivity.
  - intros files' P. rewrite !V. cbn [fst]. f_equal.
    apply sorted_of_perm, filter_perm, Permutation_sym, P.
Qed.

End Validate.

Lemma validate_returns_sorted_valid_files_witness :
  fst (validate_input_files fs_foo_bar ["B.md"; "notes.txt"; "A.md"]
         {| written := ""; console := [] |})
  = fst (validate_input_files fs_foo_bar ["A.md"; "notes.txt"; "B.md"]
           {| written := ""; console := [] |}).
Proof.
  destruct (validate_returns_sorted_valid_files fs_foo_bar
              ["A.md"; "notes.txt"; "B.md"] {| written := ""; console := [] |})
    as (_ & _ & _ & _ & H).
  apply H.
  apply perm_trans with (l' := ["notes.txt"; "A.md"; "B.md"]).
  - apply perm_swap.
  - apply perm_trans with (l' := ["notes.txt"; "B.md"; "A.md"]).
    + apply perm_skip, perm_swap.
    + apply perm_swap.
Defined.

Example is_md_ignores_case :
  is_md "docs/README.MD" = true /\ is_md "a.Md" = true
  /\ is_md "notes.md.txt" = false /\ is_md "md" = false.
Proof. repeat split. Qed.

Example validate_example :
  validate_input_files fs_foo_bar ["B.md"; "notes.txt"; "A.md"]
    {| written := ""; console := [] |}
  = (Some ["A.md"; "B.md"],
     {| written := ""; console := [SkipMissing "notes.txt"] |}).
Proof. reflexivity. Qed.

(** The walks that travel with the directory names are the walks of the
    subdirectories. *)
Lemma os_walk_dir listing top :
  os_walk (Dir listing) top
  = (top, map fst (sort_on fst (subdirs listing)), file_names listing)
      :: flat_map (fun d => os_walk (snd d) (path_join top (fst d)))
           (sort_on fst (subdirs listing)).
Proof.
  cbn [os_walk].
  match goal with
  | |- context [sort_on fst (?walks listing)] =>
      assert (walks listing
              = map (fun d : string * node => (fst d, os_walk (snd d)))
                  (subdirs listing)) as ->
  end.
  { induction listing as [|[name [content|sub]] l IH]; cbn [subdirs map].
    - reflexivity.
    - exact IH.
    - rewrite IH. reflexivity. }
  rewrite sort_on_map. cbn [fst].
  rewrite (sort_on_ext (fun a : string * node => fst a) fst) by reflexivity.
  f_equal.
  - f_equal. f_equal. rewrite map_map. reflexivity.
  - generalize (sort_on fst (subdirs listing)). intros l.
    induction l as [|d l IH]; cbn [map flat_map]; [reflexivity|].
    rewrite IH. reflexivity.
Qed.

Lemma collect_node_dir listing root :
  collect_node (Dir listing) root
  = (map (path_join root) (filter is_md (sorted (file_names listing)))
     ++ flat_map (fun d => collect_node (snd d) (path_join root (fst d)))
          (sort_on fst (subdirs listing)))%list.
Proof.
  unfold collect_node at 1. rewrite os_walk_dir. cbn [flat_map collect_triple].
  f_equal.
  generalize (sort_on fst (subdirs listing)). intros l.
  induction l as [|d l IH]; cbn [flat_map]; [reflexivity|].
  rewrite flat_map_app, IH. reflexivity.
Qed.

Lemma collect_md_files_from_directory_node fs directory n :
  fs directory = Some n ->
  collect_md_files_from_directory fs directory = collect_node n directory.
Proof.
  intros H. unfold collect_md_files_from_directory, walk, collect_node.
  rewrite H. apply flat_map_ext. intros [[root dirs] files]. reflexivity.
Qed.

(** Without the checks of [main], the walk of a root that does not
    exist or is a file yields nothing. *)
Lemma collect_alone_on_bad_root fs directory :
  isdir fs directory = false ->
  collect_md_files_from_directory fs directory = [].
Proof.
  unfold isdir, collect_md_files_from_directory, walk.
  destruct (fs directory) as [[content|listing]|]; try reflexivity.
  discriminate.
Qed.

(** The two checks of the directory branch of [main]. *)
Lemma main_directory_on_bad_root fs directory :
  (exists_ fs directory = false ->
   main_directory fs directory = inl (DirectoryNotFound directory))
  /\ (exists_ fs directory = true -> isdir fs directory = false ->
      main_directory fs directory = inl (NotADirectory directory)).
Proof.
  unfold main_directory. split.
  - intros ->. reflexivity.
  - intros -> ->. reflexivity.
Qed.

(** C7 as stated fails for the function that collects:
    [collect_md_files_from_directory] raises nothing and returns the
    empty list for a root that does not exist, and for a root that is a
    file. *)
Lemma collect_is_silent_on_bad_root :
  exists_ fs_foo_bar "docs" = false
  /\ collect_md_files_from_directory fs_foo_bar "docs" = []
  /\ exists_ fs_foo_bar "A.md" = true
  /\ isdir fs_foo_bar "A.md" = false
  /\ collect_md_files_from_directory fs_foo_bar "A.md" = [].
Proof. repeat split. Qed.

(** C8: the files collected under a directory are its own entries that
    are files and end in [.md] whatever the case, in ascending order of
    their names, followed by the files collected under each of its
    subdirectories, the subdirectories taken in ascending order of their
    names; every path is the name joined to the path of its directory.
    For the tree with [b.md] and [a.md] in the root and [c.md] in [sub]
    this gives [a.md], [b.md], [sub/c.md] under the root. *)
Theorem collect_in_traversal_order :
  (forall (fs : string -> option node) (directory : string) listing,
     fs directory = Some (Dir listing) ->
     collect_md_files_from_directory fs directory
     = collect_node (Dir listing) directory)
  /\ (forall listing root,
        collect_node (Dir listing) root
        = (map (path_join root) (sorted (filter is_md (file_names listing)))
           ++ flat_map (fun d => collect_node (snd d) (path_join root (fst d)))
                (sort_on fst (subdirs listing)))%list
        /\ ascending (sorted (filter is_md (file_names listing)))
        /\ Permutation (sorted (filter is_md (file_names listing)))
             (filter is_md (file_names listing))
        /\ StronglySorted (key_le fst) (sort_on fst (subdirs listing))
        /\ Permutation (sort_on fst (subdirs listing)) (subdirs listing))
  /\ (forall c1 c2 c3 root,
        collect_node (tree_example c1 c2 c3) root
        = [ path_join root "a.md"; path_join root "b.md";
            path_join (path_join root "sub") "c.md" ]).
Proof.
  split; [|split].
  - intros fs directory listing H.
    apply collect_md_files_from_directory_node, H.
  - intros listing root. split; [|split; [|split; [|split]]].
    + rewrite collect_node_dir, sorted_filter_comm. reflexivity.
    + apply sorted_ascending.
    + apply sorted_perm.
    + apply sort_on_sorted.
    + apply sort_on_perm.
  - intros c1 c2 c3 root. reflexivity.
Qed.

Lemma collect_in_traversal_order_witness :
  collect_md_files_from_directory fs_docs "docs"
  = [ "docs/a.md"; "docs/b.md"; "docs/sub/c.md" ].
Proof.
  rewrite (proj1 collect_in_traversal_order fs_docs "docs" _ eq_refl).
  reflexivity.
Defined.

End CollectFacts.

(* ================================================================== *)
(** * More on the configuration tree *)
(* ================================================================== *)

Module ConfigMore.
Import Config Notions ConfigFacts.

Lemma get_keys_absent keys : forall v d,
  has_path keys v = false -> get_keys keys v d = d.
Proof.
  induction keys as [|k ks IH]; intros v d H; [discriminate|].
  destruct v; try reflexivity. simpl in H |- *.
  destruct (dict_get k items); [apply IH, H | reflexivity].
Qed.

Lemma get_keys_present keys : forall v d d',
  has_path keys v = true -> get_keys keys v d = get_keys keys v d'.
Proof.
  induction keys as [|k ks IH]; intros v d d' H; [reflexivity|].
  destruct v; try discriminate. simpl in H |- *.
  destruct (dict_get k items); [apply IH, H | discriminate].
Qed.

(** [get] gives the fallback when the dotted path has no value in the
    tree (a key is missing, or the path goes on below something that is
    no mapping), and otherwise a value that does not depend on the
    fallback. *)
Theorem get_falls_back_iff_absent :
  forall (config : dict) (key : string) (default : value),
    (has_path (Py.split_dot key) (VDict config) = false ->
     get config key default = default)
    /\ (has_path (Py.split_dot key) (VDict config) = true ->
        forall default', get config key default = get config key default').
Proof.
  intros config key default. unfold get. split.
  - apply get_keys_absent.
  - intros H default'. apply get_keys_present, H.
Qed.

Lemma get_falls_back_iff_absent_witness :
  get load_default_config "separators.missing" (VStr "fallback") = VStr "fallback"
  /\ get load_default_config "output.encoding.name" (VInt 7) = VInt 7
  /\ get load_default_config "filters.max_file_size_mb" VNone
     = get load_default_config "filters.max_file_size_mb" (VStr "fallback").
Proof.
  split; [|split].
  - apply (proj1 (get_falls_back_iff_absent load_default_config
                    "separators.missing" (VStr "fallback"))). reflexivity.
  - apply (proj1 (get_falls_back_iff_absent load_default_config
                    "output.encoding.name" (VInt 7))). reflexivity.
  - apply (proj2 (get_falls_back_iff_absent load_default_config
                    "filters.max_file_size_mb" VNone)). reflexivity.
Defined.

Lemma deep_merge_items_app a : forall b base,
  deep_merge_items (a ++ b) base = deep_merge_items b (deep_merge_items a base).
Proof.
  induction a as [|[k v] a IH]; intros b base; [reflexivity|].
  rewrite <- app_comm_cons, !deep_merge_items_cons. apply IH.
Qed.

Lemma step_binding key v base :
  dict_get key (deep_merge_step key v base)
  = Some (match v, dict_get key base with
          | VDict u, Some (VDict sub) => VDict (deep_merge_items u sub)
          | _, _ => v
          end).
Proof.
  unfold deep_merge_step.
  destruct v; try apply dict_get_set_same.
  destruct (dict_get key base) as [[]|]; apply dict_get_set_same.
Qed.

(** The entry of a key that the override binds once: a value that is no
    mapping replaces what the tree had, a mapping is merged into the
    mapping the tree had, and replaces anything else. *)
Theorem override_takes_effect :
  forall (base : dict) (before after : list (string * value))
         (key : string) (v : value),
    ~ In key (map fst before) ->
    ~ In key (map fst after) ->
    deep_merge base (VDict (before ++ (key, v) :: after))
    = Ok (deep_merge_items (before ++ (key, v) :: after) base)
    /\ dict_get key (deep_merge_items (before ++ (key, v) :: after) base)
       = Some (match v, dict_get key base with
               | VDict u, Some (VDict sub) => VDict (deep_merge_items u sub)
               | _, _ => v
               end).
Proof.
  intros base before after key v Nb Na. split; [reflexivity|].
  rewrite deep_merge_items_app, deep_merge_items_cons.
  rewrite untouched_key by exact Na.
  rewrite step_binding, untouched_key by exact Nb. reflexivity.
Qed.

Lemma override_takes_effect_witness :
  dict_get "separators"
    (deep_merge_items
       ([("output", VStr "flat")]
        ++ ("separators", VDict [("between_files", VStr "***")]) :: [])
       load_default_config)
  = Some (VDict (deep_merge_items [("between_files", VStr "***")]
                   [ ("between_files", VStr "---");
                     ("add_file_headers", VBool true);
                     ("header_format", VStr "<!-- Quelle: {filepath} -->") ])).
Proof.
  refine (proj2 (override_takes_effect load_default_config
                   [("output", VStr "flat")] []
                   "separators" (VDict [("between_files", VStr "***")]) _ _)).
  - intros [H|[]]. discriminate H.
  - intros [].
Defined.

Lemma split_dot_app k : forall rest,
  plain_key k = true ->
  Py.split_dot (k ++ "." ++ rest) = k :: Py.split_dot rest.
Proof.
  unfold plain_key.
  induction k as [|c k IH]; intros rest H; [reflexivity|].
  simpl in H. apply negb_true_iff, orb_false_elim in H. destruct H as [Hc Hk].
  cbn [append Py.split_dot]. rewrite Hc.
  cbn [append] in IH. rewrite IH by (rewrite Hk; reflexivity). reflexivity.
Qed.

Lemma split_dot_plain k : plain_key k = true -> Py.split_dot k = [k].
Proof.
  unfold plain_key.
  induction k as [|c k IH]; intros H; [reflexivity|].
  simpl in H. apply negb_true_iff, orb_false_elim in H. destruct H as [Hc Hk].
  cbn [Py.split_dot]. rewrite Hc, IH by (rewrite Hk; reflexivity). reflexivity.
Qed.

Lemma split_dot_dotted keys :
  keys <> [] -> forallb plain_key keys = true ->
  Py.split_dot (dotted keys) = keys.
Proof.
  induction keys as [|k ks IH]; intros N H; [congruence|].
  cbn [forallb] in H. apply andb_prop in H. destruct H as [Hk Hks].
  destruct ks as [|k2 ks'].
  - apply split_dot_plain, Hk.
  - change (dotted (k :: k2 :: ks')) with (k ++ "." ++ dotted (k2 :: ks')).
    rewrite split_dot_app by exact Hk. f_equal. apply IH; [discriminate | exact Hks].
Qed.

Lemma get_keys_nest keys : forall v d, get_keys keys (nest keys v) d = v.
Proof.
  induction keys as [|k ks IH]; intros v d; [reflexivity|].
  cbn. rewrite String.eqb_refl. apply IH.
Qed.

Lemma get_keys_after_nest keys : forall v base d,
  keys <> [] -> is_dict v = false ->
  get_keys keys (VDict (deep_merge_value (nest keys v) base)) d = v.
Proof.
  induction keys as [|k ks IH]; intros v base d N D; [congruence|].
  change (deep_merge_value (nest (k :: ks) v) base)
    with (deep_merge_items [(k, nest ks v)] base).
  rewrite deep_merge_items_cons, deep_merge_items_nil.
  cbn [get_keys]. rewrite step_binding.
  destruct ks as [|k2 ks'].
  - cbn [nest]. destruct v; try reflexivity. discriminate.
  - change (nest (k2 :: ks') v) with (VDict [(k2, nest ks' v)]).
    destruct (dict_get k base) as [[]|];
      try (apply (get_keys_nest (k2 :: ks') v d)).
    apply (IH v items d); [discriminate | exact D].
Qed.

(** An override that binds one value, no mapping, under a path of keys
    without dots: after the merge [get] with the dotted path gives that
    value, whatever the tree held before. *)
Theorem get_after_nested_override :
  forall (base : dict) (keys : list string) (v : value)
         (merged : dict) (default : value),
    keys <> [] ->
    forallb plain_key keys = true ->
    is_dict v = false ->
    deep_merge base (nest keys v) = Ok merged ->
    get merged (dotted keys) default = v.
Proof.
  intros base keys v merged default N P D H.
  destruct keys as [|k ks]; [congruence|].
  cbn [nest deep_merge] in H. injection H as <-.
  unfold get. rewrite split_dot_dotted by assumption.
  apply (get_keys_after_nest (k :: ks) v base default N D).
Qed.

Lemma get_after_nested_override_witness :
  get (deep_merge_value (nest ["processing"; "skip_empty_files"] (VBool false))
         load_default_config)
      "processing.skip_empty_files" VNone
  = VBool false.
Proof.
  apply (get_after_nested_override load_default_config
           ["processing"; "skip_empty_files"] (VBool false) _ VNone);
    try reflexivity.
  discriminate.
Defined.

Lemma dict_mem_in k d : dict_mem k d = true <-> In k (map fst d).
Proof.
  unfold dict_mem. induction d as [|[k' v] d IH]; simpl.
  - split; [discriminate | tauto].
  - destruct (String.eqb_spec k' k) as [->|N].
    + split; auto.
    + rewrite IH. split; [auto | intros [E|I]; [congruence | exact I]].
Qed.

Lemma keys_dict_set k v d :
  map fst (dict_set k v d)
  = if dict_mem k d then map fst d else (map fst d ++ [k])%list.
Proof.
  unfold dict_mem. induction d as [|[k' w] d IH]; simpl; [reflexivity|].
  destruct (k' =? k); simpl; [reflexivity|].
  rewrite IH. destruct (dict_get k d); reflexivity.
Qed.

Lemma keys_step k v base :
  map fst (deep_merge_step k v base)
  = if dict_mem k base then map fst base else (map fst base ++ [k])%list.
Proof.
  unfold deep_merge_step.
  destruct v; try apply keys_dict_set.
  destruct (dict_get k base) as [[]|]; apply keys_dict_set.
Qed.

(** The keys after a merge: the keys of the tree in their old order,
    followed by the keys only the override has; every key of the
    override is a key of the result. *)
Theorem merged_keys_extend_base_keys :
  forall (base : dict) (items : list (string * value)),
    exists extra,
      map fst (deep_merge_items items base) = (map fst base ++ extra)%list
      /\ (forall k, In k extra ->
            In k (map fst items) /\ ~ In k (map fst base))
      /\ (forall k, In k (map fst items) ->
            In k (map fst (deep_merge_items items base))).
Proof.
  intros base items. revert base.
  induction items as [|[key v] rest IH]; intros base.
  - exists []. rewrite app_nil_r. split; [reflexivity|]. split; intros k [].
  - rewrite deep_merge_items_cons.
    destruct (IH (deep_merge_step key v base)) as (extra & E & Hx & Hi).
    rewrite keys_step in E, Hx.
    destruct (dict_mem key base) eqn:M.
    + exists extra. split; [exact E|]. split.
      * intros k I. destruct (Hx k I) as [I1 I2]. split; [right; exact I1 | exact I2].
      * intros k [<-|I]; [|apply Hi, I].
        rewrite E. apply in_or_app. left. apply dict_mem_in, M.
    + exists (key :: extra). rewrite E, <- app_assoc. split; [reflexivity|]. split.
      * intros k [<-|I].
        -- split; [left; reflexivity|]. intros I. apply dict_mem_in in I. congruence.
        -- destruct (Hx k I) as [I1 I2]. split; [right; exact I1|].
           intros I3. apply I2, in_or_app. left. exact I3.
      * intros k [<-|I].
        -- apply in_or_app. right. left. reflexivity.
        -- pose proof (Hi k I) as H. rewrite E, <- app_assoc in H. exact H.
Qed.

Lemma merged_keys_extend_base_keys_witness :
  exists extra,
    map fst (deep_merge_items
               [("logging", VBool true); ("output", VStr "flat")]
               load_default_config)
    = (["output"; "processing"; "separators"; "filters"] ++ extra)%list
    /\ In "logging" (map fst (deep_merge_items
                                [("logging", VBool true); ("output", VStr "flat")]
                                load_default_config)).
Proof.
  destruct (merged_keys_extend_base_keys load_default_config
              [("logging", VBool true); ("output", VStr "flat")])
    as (extra & E & _ & I).
  exists extra. split; [exact E|]. apply I. left. reflexivity.
Defined.

(** A tree whose keys are distinct keeps distinct keys through a merge,
    at top level. *)
Theorem merge_keeps_keys_distinct :
  forall (base : dict) (items : list (string * value)),
    NoDup (map fst base) -> NoDup (map fst (deep_merge_items items base)).
Proof.
  intros base items. revert base.
  induction items as [|[key v] rest IH]; intros base N; [exact N|].
  rewrite deep_merge_items_cons. apply IH. rewrite keys_step.
  destruct (dict_mem key base) eqn:M; [exact N|].
  apply NoDup_app; [exact N | repeat constructor; intros [] |].
  intros k I [<-|[]]. apply dict_mem_in in I. congruence.
Qed.

Lemma merge_keeps_keys_distinct_witness :
  NoDup (map fst (deep_merge_items
                    [("separators", VStr "none"); ("logging", VBool true)]
                    load_default_config)).
Proof.
  apply (merge_keeps_keys_distinct load_default_config
           [("separators", VStr "none"); ("logging", VBool true)]).
  repeat constructor; cbn; intuition discriminate.
Defined.

Section LoadOutcome.

Variable open_utf8 : string -> source.
Variable yaml_safe_load : string -> option value.
Variable json_load : string -> option value.

(** [_load_config_file] prints no warning exactly when the file opens as
    text, has a supported suffix and parses to a mapping; the tree is
    then the merge of that mapping into the tree it was given. *)
Theorem load_is_silent_iff_override_applied :
  forall (config : dict) (config_file : string),
    (forall text items,
       open_utf8 config_file = Text text ->
       supported config_file = true ->
       parser_for yaml_safe_load json_load config_file text = Some (VDict items) ->
       load_config_file open_utf8 yaml_safe_load json_load config config_file
       = (deep_merge_items items config, []))
    /\ (snd (load_config_file open_utf8 yaml_safe_load json_load config config_file) = [] ->
        exists text items,
          open_utf8 config_file = Text text
          /\ supported config_file = true
          /\ parser_for yaml_safe_load json_load config_file text = Some (VDict items)).
Proof.
  intros config f. split.
  - intros text items O S P. unfold load_config_file.
    rewrite (read_user_config_supported _ _ _ f S), O. cbn [parse_with].
    rewrite P. reflexivity.
  - unfold load_config_file. destruct (supported f) eqn:S.
    + rewrite (read_user_config_supported _ _ _ f S).
      destruct (open_utf8 f) as [| |text]; cbn [parse_with]; try discriminate.
      destruct (parser_for yaml_safe_load json_load f text) as [document|] eqn:P;
        [|discriminate].
      destruct document; cbn; try discriminate. intros _.
      exists text, items. repeat split. exact P.
    + destruct (read_user_config_unsupported open_utf8 yaml_safe_load json_load f S)
        as [e ->]. discriminate.
Qed.

End LoadOutcome.

Lemma load_is_silent_iff_override_applied_witness :
  load_config_file
    (fun _ => Text "separators: none")
    (fun _ => Some (VDict [("separators", VStr "none")]))
    (fun _ => None)
    load_default_config "merger.yml"
  = (deep_merge_items [("separators", VStr "none")] load_default_config, [])
  /\ exists text items,
       Text "separators: none" = Text text
       /\ supported "merger.yml" = true
       /\ parser_for (fun _ => Some (VDict [("separators", VStr "none")]))
            (fun _ => None) "merger.yml" text = Some (VDict items).
Proof.
  destruct (load_is_silent_iff_override_applied
              (fun _ => Text "separators: none")
              (fun _ => Some (VDict [("separators", VStr "none")]))
              (fun _ => None)
              load_default_config "merger.yml") as [H1 H2].
  split.
  - apply (H1 "separators: none" [("separators", VStr "none")]); reflexivity.
  - apply H2. reflexivity.
Defined.

(** The two predicates on the items of a mapping, one item at a time. *)
Lemma unique_keys_cons k v rest :
  unique_keys (VDict ((k, v) :: rest))
  <-> ~ In k (map fst rest) /\ unique_keys v /\ unique_keys (VDict rest).
Proof.
  cbn [unique_keys map fst]. rewrite NoDup_cons_iff. tauto.
Qed.

Lemma absorbed_cons k v rest base :
  absorbed (VDict ((k, v) :: rest)) base
  <-> match v with
      | VDict _ => exists sub, dict_get k base = Some (VDict sub) /\ absorbed v sub
      | _ => dict_get k base = Some v
      end
      /\ absorbed (VDict rest) base.
Proof. reflexivity. Qed.

Lemma dict_set_bound k v d : dict_get k d = Some v -> dict_set k v d = d.
Proof.
  induction d as [|[k' w] d IH]; simpl; [discriminate|].
  destruct (k' =? k); intros H.
  - congruence.
  - rewrite IH by exact H. reflexivity.
Qed.

Lemma dict_get_first k v rest : dict_get k ((k, v) :: rest) = Some v.
Proof. simpl. rewrite String.eqb_refl. reflexivity. Qed.

(** Merging an override into a tree that already holds it changes
    nothing. *)
Lemma absorbed_merge_id update :
  forall base, absorbed update base -> deep_merge_value update base = base.
Proof.
  induction update as [| | | | |items IH] using value_items_ind;
    try reflexivity.
  intros base. fold (deep_merge_items items base).
  induction IH as [|[k v] rest Hv _ IHrest]; intros A; [reflexivity|].
  apply absorbed_cons in A. destruct A as [Av Arest].
  rewrite deep_merge_items_cons.
  assert (deep_merge_step k v base = base) as ->.
  { unfold deep_merge_step. cbn [snd] in Hv.
    destruct v; try (apply dict_set_bound; exact Av).
    destruct Av as (sub & G & Asub). rewrite G, (Hv sub Asub).
    apply dict_set_bound, G. }
  apply IHrest, Arest.
Qed.

(** Later items of an override do not disturb what an earlier item with
    another key has put into the tree. *)
Lemma absorbed_step update : forall key v base,
  ~ In key (map fst match update with VDict items => items | _ => [] end) ->
  absorbed update base -> absorbed update (deep_merge_step key v base).
Proof.
  destruct update as [| | | | |items]; try (intros; exact I).
  induction items as [|[k x] rest IH]; intros key v base N A; [exact I|].
  apply absorbed_cons in A. destruct A as [Ax Arest]. apply absorbed_cons.
  assert (key <> k) as Nk by (intros ->; apply N; left; reflexivity).
  split.
  - rewrite step_other by exact Nk. exact Ax.
  - apply IH; [|exact Arest]. intros J. apply N. right. exact J.
Qed.

(** A mapping with distinct keys holds itself. *)
Lemma absorbed_self update :
  unique_keys update ->
  match update with VDict items => absorbed update items | _ => True end.
Proof.
  induction update as [| | | | |items IH] using value_items_ind;
    try (intros; exact I).
  intros U.
  (* every item of a tail is bound in the whole mapping *)
  assert (forall done rest,
            items = (done ++ rest)%list ->
            absorbed (VDict rest) items) as H.
  { intros done rest. revert done.
    induction rest as [|[k x] rest IHrest]; intros done E; [exact I|].
    apply absorbed_cons. split.
    - assert (dict_get k items = Some x) as G.
      { rewrite E in U |- *. clear -U.
        induction done as [|[k' w] done IHd].
        - apply dict_get_first.
        - apply unique_keys_cons in U. destruct U as (N & _ & U).
          cbn [app dict_get]. destruct (String.eqb_spec k' k) as [->|_].
          + exfalso. apply N. rewrite map_app. apply in_or_app.
            right. left. reflexivity.
          + apply IHd, U. }
      assert (In (k, x) items) as Ix
        by (rewrite E; apply in_or_app; right; left; reflexivity).
      assert (unique_keys x) as Ux.
      { rewrite E in U. clear -U.
        induction done as [|[k' w] done IHd].
        - apply unique_keys_cons in U. tauto.
        - apply unique_keys_cons in U. apply IHd. tauto. }
      rewrite Forall_forall in IH. specialize (IH (k, x) Ix Ux). cbn [snd] in IH.
      destruct x; try exact G. eauto.
    - apply (IHrest (done ++ [(k, x)])%list). rewrite <- app_assoc. exact E. }
  apply (H [] items eq_refl).
Qed.

(** After a merge the tree holds the override. *)
Lemma merge_absorbs update :
  unique_keys update ->
  forall base, absorbed update (deep_merge_value update base).
Proof.
  induction update as [| | | | |items IH] using value_items_ind;
    try (intros; exact I).
  intros U base. fold (deep_merge_items items base). revert U base.
  induction IH as [|[k v] rest Hv Hrest IHrest]; intros U base; [exact I|].
  apply unique_keys_cons in U. destruct U as (N & Uv & Urest).
  rewrite deep_merge_items_cons. apply absorbed_cons. split.
  - rewrite untouched_key by exact N. rewrite step_binding. cbn [snd] in Hv.
    destruct v; try reflexivity.
    destruct (dict_get k base) as [[]|].
    all: try (eexists; split; [reflexivity|]; exact (absorbed_self _ Uv)).
    eexists. split; [reflexivity|]. apply (Hv Uv).
  - apply IHrest, Urest.
Qed.

(** Merging the same override a second time changes nothing, for an
    override whose mappings bind each key once. *)
Theorem deep_merge_twice_is_once :
  forall (base : dict) (update : value) (merged : dict),
    unique_keys update ->
    deep_merge base update = Ok merged ->
    deep_merge merged update = Ok merged.
Proof.
  intros base update merged U H.
  destruct update as [| | | | |items]; try discriminate.
  injection H as <-. cbn [deep_merge]. f_equal.
  exact (absorbed_merge_id (VDict items) _ (merge_absorbs (VDict items) U base)).
Qed.

Lemma deep_merge_twice_is_once_witness :
  deep_merge default_with_between_files override_between_files
  = Ok default_with_between_files.
Proof.
  apply (deep_merge_twice_is_once load_default_config override_between_files).
  - cbn. repeat constructor; intros [].
  - reflexivity.
Defined.

End ConfigMore.

(* ================================================================== *)
(** * More on the merge *)
(* ================================================================== *)

Module MergeMore.
Import Py Merger Notions MergeFacts.





Section Prefix.

Variable fs : string -> option node.
Variable dest : destination.
Variable add_separators : bool.




End Prefix.


Section Shape.

Variable fs : string -> option node.

Lemma endswith_refl s : endswith s s = true.
Proof. destruct s; cbn [endswith]; rewrite String.eqb_refl; reflexivity. Qed.

Lemma endswith_app a : forall b s, endswith b s = true -> endswith (a ++ b) s = true.
Proof.
  induction a as [|c a IH]; intros b s H; [exact H|].
  cbn [append endswith]. rewrite (IH b s H). apply orb_true_r.
Qed.

Lemma contribution_ends sep n i filepath :
  contribution fs sep n i filepath = ""
  \/ endswith (contribution fs sep n i filepath) nl = true.
Proof.
  unfold contribution. destruct (content_of fs filepath =? ""); [left; reflexivity|].
  right. apply endswith_app.
  destruct (sep && (i <? n - 1)%Z).
  - apply endswith_app, endswith_app. reflexivity.
  - destruct (endswith (content_of fs filepath) nl) eqn:E.
    + cbn [append]. rewrite append_nil_r. exact E.
    + apply endswith_app. reflexivity.
Qed.

Lemma contributions_end sep n files : forall i,
  contributions fs sep n i files = ""
  \/ endswith (contributions fs sep n i files) nl = true.
Proof.
  induction files as [|filepath rest IH]; intros i; [left; reflexivity|].
  cbn [contributions]. destruct (IH (i + 1)%Z) as [->|E].
  - rewrite append_nil_r. apply contribution_ends.
  - right. apply endswith_app, E.
Qed.

(** When every write goes through, the merged text is empty or ends
    with a line end, whatever the sources end with. *)
Theorem merged_text_ends_with_newline :
  forall (dest : destination) (add_separators : bool)
         (files : list string) (output_file text : string),
    opens dest = true ->
    (forall written chunk, accepts dest written chunk = true) ->
    output (merge_markdown_files fs dest add_separators files output_file) = Some text ->
    text = "" \/ endswith text nl = true.
Proof.
  intros dest sep files output_file text O A H.
  rewrite merge_spec in H by assumption. injection H as <-.
  apply contributions_end.
Qed.

(** What is written for a file depends on its position only through
    the test for a separator. *)
Lemma contribution_position sep n i n' i' filepath :
  (i <? n - 1)%Z = (i' <? n' - 1)%Z ->
  contribution fs sep n i filepath = contribution fs sep n' i' filepath.
Proof. unfold contribution. intros ->. reflexivity. Qed.

Lemma contribution_skipped sep n i filepath :
  survives fs filepath = false -> contribution fs sep n i filepath = "".
Proof.
  unfold survives, contribution. intros H.
  apply negb_false_iff in H. rewrite H. reflexivity.
Qed.

Lemma contributions_without_separators files : forall n i n' i',
  contributions fs false n i files
  = contributions fs false n' i' (filter (survives fs) files).
Proof.
  induction files as [|filepath rest IH]; intros n i n' i'; [reflexivity|].
  cbn [contributions filter]. destruct (survives fs filepath) eqn:S.
  - cbn [contributions]. f_equal; solve [apply IH | reflexivity].
  - rewrite contribution_skipped by exact S. apply IH.
Qed.

Lemma last_survives_filter files :
  files <> [] -> last_survives fs files = true ->
  filter (survives fs) files <> [].
Proof.
  induction files as [|filepath rest IH]; intros N L; [congruence|].
  destruct rest as [|g rest'].
  - cbn in L |- *. rewrite L. discriminate.
  - cbn [filter]. destruct (survives fs filepath); [discriminate|].
    refine (IH _ L). discriminate.
Qed.

Lemma contributions_with_separators files : forall n i n' i',
  last_survives fs files = true ->
  n = (i + Z.of_nat (List.length files))%Z ->
  n' = (i' + Z.of_nat (List.length (filter (survives fs) files)))%Z ->
  contributions fs true n i files
  = contributions fs true n' i' (filter (survives fs) files).
Proof.
  induction files as [|filepath rest IH]; intros n i n' i' L En En'; [reflexivity|].
  destruct rest as [|g rest'].
  - cbn in L. cbn [filter List.length] in *. rewrite L in *.
    cbn [contributions List.length]. f_equal.
    apply contribution_position.
    cbn [List.length] in En'. rewrite (proj2 (Z.ltb_ge _ _)), (proj2 (Z.ltb_ge _ _)) by lia.
    reflexivity.
  - assert (List.length (filter (survives fs) (g :: rest')) <> 0)%nat as Nf.
    { intros Z0. apply (last_survives_filter (g :: rest')); [discriminate | exact L |].
      destruct (filter (survives fs) (g :: rest')); [reflexivity | discriminate]. }
    change (filter (survives fs) (filepath :: g :: rest'))
      with (if survives fs filepath
            then filepath :: filter (survives fs) (g :: rest')
            else filter (survives fs) (g :: rest')) in *.
    change (contributions fs true n i (filepath :: g :: rest'))
      with (contribution fs true n i filepath
            ++ contributions fs true n (i + 1) (g :: rest')).
    destruct (survives fs filepath) eqn:S.
    + cbn [contributions]. f_equal.
      * apply contribution_position.
        cbn [List.length] in En, En'.
        rewrite (proj2 (Z.ltb_lt _ _)), (proj2 (Z.ltb_lt _ _)) by lia. reflexivity.
      * apply IH; [exact L | |]; cbn [List.length] in En, En' |- *; lia.
    + rewrite contribution_skipped by exact S. cbn [append].
      apply IH; [exact L | |]; cbn [List.length] in En |- *; lia.
Qed.

(** Skipped sources leave no trace in the merged text when separators
    are off, or when the last file of the list is not skipped: the text
    is then the text of the merge of the files that are not skipped. *)
Theorem skipped_files_leave_no_trace :
  forall (dest : destination) (add_separators : bool)
         (files : list string) (output_file : string),
    opens dest = true ->
    (forall written chunk, accepts dest written chunk = true) ->
    add_separators = false \/ last_survives fs files = true ->
    output (merge_markdown_files fs dest add_separators files output_file)
    = output (merge_markdown_files fs dest add_separators
                (filter (survives fs) files) output_file).
Proof.
  intros dest sep files output_file O A H.
  rewrite !merge_spec by assumption. cbn [output]. f_equal.
  destruct sep.
  - destruct H as [H|H]; [discriminate|].
    apply contributions_with_separators; [exact H | |]; lia.
  - apply contributions_without_separators.
Qed.

End Shape.

Lemma merged_text_ends_with_newline_witness :
  "<!-- Quelle: A.md -->" ++ nl ++ nl ++ "foo" ++ nl = ""
  \/ endswith ("<!-- Quelle: A.md -->" ++ nl ++ nl ++ "foo" ++ nl) nl = true.
Proof.
  apply (merged_text_ends_with_newline fs_foo_bar unlimited false ["A.md"] "out.md");
    reflexivity.
Defined.

Lemma skipped_files_leave_no_trace_witness :
  output (merge_markdown_files fs_foo_empty unlimited true
            ["B.md"; "missing.md"; "A.md"] "out.md")
  = output (merge_markdown_files fs_foo_empty unlimited true
              (filter (survives fs_foo_empty) ["B.md"; "missing.md"; "A.md"]) "out.md").
Proof.
  apply (skipped_files_leave_no_trace fs_foo_empty unlimited true
           ["B.md"; "missing.md"; "A.md"] "out.md"); try reflexivity.
  right. reflexivity.
Defined.

End MergeMore.

(* ================================================================== *)
(** * More on collection and validation *)
(* ================================================================== *)

Module CollectMore.
Import Py PyFacts Merger Notions CollectFacts.

Lemma lower_app a b : lower (a ++ b) = lower a ++ lower b.
Proof. induction a as [|c a IH]; simpl; congruence. Qed.

Lemma is_md_app a name : is_md name = true -> is_md (a ++ name) = true.
Proof.
  unfold is_md. intros H. rewrite lower_app. apply MergeMore.endswith_app, H.
Qed.

Lemma is_md_join root name :
  is_md name = true -> is_md (path_join root name) = true.
Proof.
  intros H. unfold path_join.
  destruct (startswith name "/"); [exact H|].
  destruct ((root =? "") || endswith root "/").
  - apply is_md_app, H.
  - apply is_md_app, is_md_app, H.
Qed.

Lemma subdirs_incl listing entry : In entry (subdirs listing) -> In entry listing.
Proof.
  induction listing as [|[name [content|sub]] l IH]; cbn [subdirs]; intros H.
  - exact H.
  - right. apply IH, H.
  - destruct H as [<-|H]; [left; reflexivity | right; apply IH, H].
Qed.

Lemma collect_node_is_md n : forall root,
  Forall (fun path => is_md path = true) (collect_node n root).
Proof.
  induction n as [content|listing IH] using node_listing_ind; intros root.
  - constructor.
  - rewrite collect_node_dir. apply Forall_app. split.
    + apply Forall_forall. intros path H. apply in_map_iff in H.
      destruct H as (name & <- & H). apply is_md_join.
      apply filter_In in H. tauto.
    + apply Forall_forall. intros path H. apply in_flat_map in H.
      destruct H as (d & Hd & Hp).
      assert (In d listing) as Id.
      { apply subdirs_incl. eapply Permutation_in; [apply sort_on_perm | exact Hd]. }
      rewrite Forall_forall in IH. specialize (IH d Id (path_join root (fst d))).
      rewrite Forall_forall in IH. apply IH, Hp.
Qed.

(** Every path collected under a directory ends in [.md] whatever the
    case, so the validation that follows never rejects a collected path
    for its name. *)
Theorem collected_paths_are_markdown :
  forall (fs : string -> option node) (directory path : string),
    In path (collect_md_files_from_directory fs directory) ->
    is_md path = true
    /\ rejection fs path <> [SkipNotMarkdown path].
Proof.
  intros fs directory path H.
  assert (is_md path = true) as M.
  { unfold collect_md_files_from_directory, walk in H.
    destruct (fs directory) as [n|]; [|destruct H].
    pose proof (collect_node_is_md n directory) as F.
    rewrite Forall_forall in F. apply F. unfold collect_node.
    apply in_flat_map in H. destruct H as (t & Ht & Hp).
    apply in_flat_map. exists t. split; [exact Ht|].
    destruct t as [[root dirs] files]. exact Hp. }
  split; [exact M|].
  unfold rejection. rewrite M.
  destruct (exists_ fs path), (isfile fs path); cbn; discriminate.
Qed.

Lemma collected_paths_are_markdown_witness :
  is_md "docs/sub/c.md" = true
  /\ rejection fs_docs "docs/sub/c.md" <> [SkipNotMarkdown "docs/sub/c.md"].
Proof.
  apply (collected_paths_are_markdown fs_docs "docs" "docs/sub/c.md").
  cbn. right. right. left. reflexivity.
Defined.

Lemma sorted_idem l : sorted (sorted l) = sorted l.
Proof.
  apply ascending_perm_eq; try apply sorted_ascending. apply sorted_perm.
Qed.

Lemma filter_idem {A : Type} (p : A -> bool) l : filter p (filter p l) = filter p l.
Proof.
  induction l as [|x l IH]; simpl; [reflexivity|].
  destruct (p x) eqn:E; simpl; rewrite ?E, IH; reflexivity.
Qed.

Lemma no_rejection_for_valid fs l :
  Forall (fun file => valid fs file = true) l -> flat_map (rejection fs) l = [].
Proof.
  induction 1 as [|file l V _ IH]; [reflexivity|].
  cbn [flat_map]. rewrite IH, app_nil_r.
  unfold valid in V. unfold rejection.
  destruct (exists_ fs file), (isfile fs file), (is_md file);
    try discriminate; reflexivity.
Qed.

Lemma validate_input_files_spec fs files w :
  validate_input_files fs files w
  = (Some (sorted (filter (valid fs) files)),
     {| written := written w;
        console := (console w ++ flat_map (rejection fs) files)%list |}).
Proof.
  unfold validate_input_files, bind. rewrite validate_loop_spec. reflexivity.
Qed.

(** Validating the result of a validation again gives the same list and
    prints nothing. *)
Theorem validation_is_idempotent :
  forall (fs : string -> option node) (files valid_files : list string)
         (w w1 w2 : world),
    validate_input_files fs files w = (Some valid_files, w1) ->
    validate_input_files fs valid_files w2 = (Some valid_files, w2).
Proof.
  intros fs files valid_files w w1 w2 H.
  rewrite validate_input_files_spec in H. injection H as <- _.
  rewrite validate_input_files_spec.
  rewrite <- sorted_filter_comm, filter_idem, sorted_idem.
  rewrite no_rejection_for_valid, app_nil_r.
  - destruct w2; reflexivity.
  - apply Forall_forall. intros file I.
    assert (In file (filter (valid fs) files)) as J
      by (eapply Permutation_in; [apply sorted_perm | exact I]).
    apply filter_In in J. tauto.
Qed.

Lemma validation_is_idempotent_witness :
  validate_input_files fs_foo_bar ["A.md"; "B.md"] {| written := ""; console := [] |}
  = (Some ["A.md"; "B.md"], {| written := ""; console := [] |}).
Proof.
  apply (validation_is_idempotent fs_foo_bar ["B.md"; "notes.txt"; "A.md"]
           ["A.md"; "B.md"]
           {| written := ""; console := [] |}
           {| written := ""; console := [SkipMissing "notes.txt"] |}).
  reflexivity.
Defined.

Lemma file_names_perm l l' :
  Permutation l l' -> Permutation (file_names l) (file_names l').
Proof.
  induction 1 as [|[name [c|sub]] l l' P IH|[n1 [c1|s1]] [n2 [c2|s2]] l|l1 l2 l3 P1 IH1 P2 IH2];
    cbn [file_names]; try apply Permutation_refl; try (constructor; assumption);
    try assumption.
  eapply perm_trans; eassumption.
Qed.

Lemma subdirs_perm l l' :
  Permutation l l' -> Permutation (subdirs l) (subdirs l').
Proof.
  induction 1 as [|[name [c|sub]] l l' P IH|[n1 [c1|s1]] [n2 [c2|s2]] l|l1 l2 l3 P1 IH1 P2 IH2];
    cbn [subdirs]; try apply Permutation_refl; try (constructor; assumption);
    try assumption.
  eapply perm_trans; eassumption.
Qed.

Lemma subdirs_names_distinct l :
  NoDup (map fst l) -> NoDup (map fst (subdirs l)).
Proof.
  induction l as [|[name [c|sub]] l IH]; cbn [subdirs map fst]; intros N.
  - constructor.
  - apply IH. inversion N; assumption.
  - inversion N as [|? ? Hn Hl]; subst. constructor; [|apply IH, Hl].
    intros I. apply Hn. apply in_map_iff in I. destruct I as (d & E & I).
    apply in_map_iff. exists d. split; [exact E | apply subdirs_incl, I].
Qed.

(** Two lists sorted by a key that holds the same elements, the keys
    being distinct, are the same list. *)
Lemma sorted_by_key_perm_eq {A : Type} (key : A -> string) l1 :
  forall l2,
    StronglySorted (key_le key) l1 -> StronglySorted (key_le key) l2 ->
    Permutation l1 l2 -> NoDup (map key l1) -> l1 = l2.
Proof.
  induction l1 as [|x l1 IH]; intros l2 S1 S2 P N.
  - apply Permutation_nil in P. congruence.
  - destruct l2 as [|y l2];
      [apply Permutation_sym, Permutation_nil in P; discriminate|].
    apply StronglySorted_inv in S1. destruct S1 as [S1 Hx].
    apply StronglySorted_inv in S2. destruct S2 as [S2 Hy].
    cbn [map] in N. apply NoDup_cons_iff in N. destruct N as [Nx N].
    assert (x = y) as ->.
    { assert (In x (y :: l2)) as Ix
        by (eapply Permutation_in; [exact P | left; reflexivity]).
      assert (In y (x :: l1)) as Iy
        by (eapply Permutation_in; [apply Permutation_sym, P | left; reflexivity]).
      destruct Ix as [->|Ix]; [reflexivity|].
      destruct Iy as [->|Iy]; [reflexivity|].
      exfalso. apply Nx.
      rewrite Forall_forall in Hx, Hy.
      assert (key x = key y) as ->
        by (apply str_le_antisym; [apply Hx, Iy | apply Hy, Ix]).
      apply in_map, Iy. }
    f_equal. apply IH; try assumption.
    eapply Permutation_cons_inv, P.
Qed.

Lemma sort_on_of_perm {A : Type} (key : A -> string) l1 l2 :
  Permutation l1 l2 -> NoDup (map key l1) ->
  sort_on key l1 = sort_on key l2.
Proof.
  intros P N. apply (sorted_by_key_perm_eq key); try apply sort_on_sorted.
  - eapply perm_trans; [apply sort_on_perm|].
    eapply perm_trans; [exact P | apply Permutation_sym, sort_on_perm].
  - eapply Permutation_NoDup; [|exact N].
    apply Permutation_map, Permutation_sym, sort_on_perm.
Qed.

(** The order in which the operating system lists the entries of the
    directory does not matter: two listings of the same entries, with
    distinct names, give the same list of collected files. *)
Theorem collection_ignores_listing_order :
  forall (fs fs' : string -> option node) (directory : string)
         (listing listing' : list (string * node)),
    fs directory = Some (Dir listing) ->
    fs' directory = Some (Dir listing') ->
    Permutation listing listing' ->
    NoDup (map fst listing) ->
    collect_md_files_from_directory fs directory
    = collect_md_files_from_directory fs' directory.
Proof.
  intros fs fs' directory listing listing' H H' P N.
  rewrite (collect_md_files_from_directory_node fs directory _ H).
  rewrite (collect_md_files_from_directory_node fs' directory _ H').
  rewrite !collect_node_dir.
  rewrite (sorted_of_perm _ _ (file_names_perm _ _ P)).
  rewrite (sort_on_of_perm fst _ _ (subdirs_perm _ _ P) (subdirs_names_distinct _ N)).
  reflexivity.
Qed.

Lemma collection_ignores_listing_order_witness :
  collect_md_files_from_directory fs_docs "docs"
  = collect_md_files_from_directory
      (fun path =>
         if path =? "docs"
         then Some (Dir [ ("a.md", File (Some "a")); ("b.md", File (Some "b"));
                          ("sub", Dir [ ("c.md", File (Some "c")) ]) ])
         else None)
      "docs".
Proof.
  apply (collection_ignores_listing_order fs_docs _ "docs"
           [ ("b.md", File (Some "b")); ("a.md", File (Some "a"));
             ("sub", Dir [ ("c.md", File (Some "c")) ]) ]
           [ ("a.md", File (Some "a")); ("b.md", File (Some "b"));
             ("sub", Dir [ ("c.md", File (Some "c")) ]) ]).
  - reflexivity.
  - reflexivity.
  - apply perm_swap.
  - repeat constructor; cbn; intuition discriminate.
Defined.

End CollectMore.

(* ================================================================== *)
(** * The command line *)
(* ================================================================== *)

Module CliFacts.
Import Py PyFacts Merger Notions Cli.

Section MainFacts.

Variable fs : string -> option node.
Variable dest : destination.
Variable output_exists : bool.
Variable response : string.

Lemma call_validate files :
  call (validate_input_files fs files)
  = (Some (sorted (filter (valid fs) files)),
     map Core (flat_map (rejection fs) files)).
Proof.
  unfold call. rewrite CollectMore.validate_input_files_spec. reflexivity.
Qed.

(** What the input phase gives: the sorted valid candidates, or an end
    with status 1 that leaves the destination alone. *)
Lemma collect_input_spec a :
  (exists printed,
     collect_input fs a
     = inr (sorted (filter (valid fs) (candidates fs a)), printed))
  \/ (exists printed, collect_input fs a = inl (stop 1 printed)).
Proof.
  destruct a as [[|f1 [|f2 files]]|directory]; cbn [collect_input candidates].
  - right. eauto.
  - right. eexists. reflexivity.
  - left. change (List.length (f1 :: f2 :: files) <? 2)%nat with false.
    cbn iota. rewrite call_validate. eauto.
  - unfold main_directory.
    destruct (exists_ fs directory); cbn [negb]; [|right; eauto].
    destruct (isdir fs directory); cbn [negb]; [|right; eauto].
    left. rewrite call_validate. eauto.
Qed.

Lemma collect_input_short a :
  (List.length (filter (valid fs) (candidates fs a)) < 2)%nat ->
  forall input_files printed,
    collect_input fs a = inr (input_files, printed) ->
    (List.length input_files < 2)%nat.
Proof.
  intros H input_files printed E.
  destruct (collect_input_spec a) as [(pr & E')|(pr & E')]; rewrite E' in E;
    [|discriminate].
  injection E as <- _.
  rewrite (Permutation_length (sorted_perm _)). exact H.
Qed.


(** Whenever [main] opens the destination, at least two paths passed
    the validation, and the text is what the merge writes for exactly
    these paths in ascending order, with separators unless
    [--no-separators] was given. *)
Theorem main_merges_at_least_two_valid_files :
  forall (a : args) (text : string),
    destination_text (main fs dest output_exists response a) = Some text ->
    exists input_files,
      input_files = sorted (filter (valid fs) (candidates fs (arg_input a)))
      /\ (2 <= List.length input_files)%nat
      /\ output (merge_markdown_files fs dest (negb (arg_no_separators a))
                   input_files (arg_output a)) = Some text.
Proof.
  intros a text. unfold main.
  destruct (collect_input_spec (arg_input a)) as [(pr & ->)|(pr & ->)];
    [|discriminate].
  set (input_files := sorted (filter (valid fs) (candidates fs (arg_input a)))).
  destruct input_files as [|f1 rest] eqn:E; [discriminate|].
  destruct (List.length (f1 :: rest) <? 2)%nat eqn:L; [discriminate|].
  apply Nat.ltb_ge in L.
  destruct (output_exists && negb (arg_force a) && negb (affirmative response));
    [discriminate|].
  destruct (returned _); cbn [destination_text]; intros H;
    exists (f1 :: rest); auto.
Qed.

(** An output file that exists is left alone unless [--force] is given
    or the answer to the prompt is j, ja, y or yes, whatever the
    case. *)
Theorem main_keeps_existing_output :
  forall a : args,
    output_exists = true ->
    arg_force a = false ->
    affirmative response = false ->
    destination_text (main fs dest output_exists response a) = None.
Proof.
  intros a O F R. unfold main.
  destruct (collect_input fs (arg_input a)) as [r|[input_files pr]] eqn:E.
  - destruct (collect_input_spec (arg_input a)) as [(pr & E')|(pr & E')];
      rewrite E' in E; [discriminate|]. injection E as <-. reflexivity.
  - destruct input_files as [|f1 rest]; [reflexivity|].
    destruct (List.length (f1 :: rest) <? 2)%nat; [reflexivity|].
    rewrite O, F, R. reflexivity.
Qed.

(** With fewer than two valid candidates [main] ends with status 1 and
    does not open the destination, in both modes. *)
Theorem main_needs_two_valid_files :
  forall a : args,
    (List.length (filter (valid fs) (candidates fs (arg_input a))) < 2)%nat ->
    exit_code (main fs dest output_exists response a) = 1%Z
    /\ destination_text (main fs dest output_exists response a) = None.
Proof.
  intros a H. unfold main.
  destruct (collect_input fs (arg_input a)) as [r|[input_files pr]] eqn:E.
  - destruct (collect_input_spec (arg_input a)) as [(pr & E')|(pr & E')];
      rewrite E' in E; [discriminate|]. injection E as <-. split; reflexivity.
  - pose proof (collect_input_short _ H _ _ E) as L.
    destruct input_files as [|f1 rest]; [split; reflexivity|].
    apply Nat.ltb_lt in L. rewrite L. split; reflexivity.
Qed.


End MainFacts.

Lemma main_merges_at_least_two_valid_files_witness :
  exists input_files,
    input_files = sorted (filter (valid fs_foo_bar) ["B.md"; "A.md"])
    /\ (2 <= List.length input_files)%nat
    /\ output (merge_markdown_files fs_foo_bar unlimited true input_files "out.md")
       = Some ("<!-- Quelle: A.md -->" ++ nl ++ nl ++ "foo" ++ nl
               ++ nl ++ "---" ++ nl ++ nl
               ++ "<!-- Quelle: B.md -->" ++ nl ++ nl ++ "bar" ++ nl).
Proof.
  apply (main_merges_at_least_two_valid_files fs_foo_bar unlimited false ""
           args_two_files).
  reflexivity.
Defined.

Lemma main_keeps_existing_output_witness :
  destination_text (main fs_foo_bar unlimited true "Nein" args_two_files) = None.
Proof.
  apply (main_keeps_existing_output fs_foo_bar unlimited true "Nein" args_two_files);
    reflexivity.
Defined.

Lemma main_needs_two_valid_files_witness :
  exit_code (main fs_foo_bar unlimited false "" args_one_valid) = 1%Z
  /\ destination_text (main fs_foo_bar unlimited false "" args_one_valid) = None.
Proof.
  apply (main_needs_two_valid_files fs_foo_bar unlimited false "" args_one_valid).
  vm_compute. lia.
Defined.


(** C7, as the code has it: the checks of the root are those of [main]
    in directory mode.  When nothing is at the root path, [main] prints
    that the directory does not exist and ends with status 1; when
    something that is no directory is there, it prints that it is no
    directory and ends with status 1; either way nothing else is
    printed and the destination is not opened.
    [collect_md_files_from_directory] itself returns the empty list on
    such a root. *)
Theorem main_fails_on_bad_directory :
  forall (fs : string -> option node) (dest : destination)
         (output_exists : bool) (response : string)
         (a : args) (directory : string),
    arg_input a = Directory directory ->
    (exists_ fs directory = false ->
     main fs dest output_exists response a
     = {| exit_code := 1; destination_text := None;
          lines := [Fatal (DirectoryNotFound directory)] |})
    /\ (exists_ fs directory = true -> isdir fs directory = false ->
        main fs dest output_exists response a
        = {| exit_code := 1; destination_text := None;
             lines := [Fatal (NotADirectory directory)] |})
    /\ (isdir fs directory = false ->
        collect_md_files_from_directory fs directory = []).
Proof.
  intros fs dest output_exists response a directory E.
  destruct (CollectFacts.main_directory_on_bad_root fs directory) as [H1 H2].
  split; [|split].
  - intros X. unfold main. rewrite E. cbn [collect_input].
    rewrite (H1 X). reflexivity.
  - intros X D. unfold main. rewrite E. cbn [collect_input].
    rewrite (H2 X D). reflexivity.
  - apply CollectFacts.collect_alone_on_bad_root.
Qed.

Lemma main_fails_on_bad_directory_witness :
  main fs_foo_bar unlimited false ""
    {| arg_input := Directory "docs"; arg_output := "out.md";
       arg_no_separators := false; arg_force := true |}
  = {| exit_code := 1; destination_text := None;
       lines := [Fatal (DirectoryNotFound "docs")] |}
  /\ main fs_foo_bar unlimited false ""
       {| arg_input := Directory "A.md"; arg_output := "out.md";
          arg_no_separators := false; arg_force := true |}
     = {| exit_code := 1; destination_text := None;
          lines := [Fatal (NotADirectory "A.md")] |}
  /\ collect_md_files_from_directory fs_foo_bar "A.md" = [].
Proof.
  destruct (main_fails_on_bad_directory fs_foo_bar unlimited false ""
              {| arg_input := Directory "docs"; arg_output := "out.md";
                 arg_no_separators := false; arg_force := true |}
              "docs" eq_refl) as (H1 & _ & _).
  destruct (main_fails_on_bad_directory fs_foo_bar unlimited false ""
              {| arg_input := Directory "A.md"; arg_output := "out.md";
                 arg_no_separators := false; arg_force := true |}
              "A.md" eq_refl) as (_ & H2 & H3).
  split; [apply H1; reflexivity|].
  split; [apply H2; reflexivity | apply H3; reflexivity].
Defined.

(** The run of the example, line by line. *)
Example main_run_example :
  main fs_foo_bar unlimited true "JA" args_two_files
  = {| exit_code := 0;
       destination_text :=
         Some ("<!-- Quelle: A.md -->" ++ nl ++ nl ++ "foo" ++ nl
               ++ nl ++ "---" ++ nl ++ nl
               ++ "<!-- Quelle: B.md -->" ++ nl ++ nl ++ "bar" ++ nl);
       lines := [ Prompt "out.md"; Found 2; Item "A.md"; Item "B.md";
                  Destination "out.md"; Blank;
                  Core (Processing "A.md"); Core (Processing "B.md");
                  Merged 2 "out.md"; Size 60 ] |}.
Proof. reflexivity. Qed.

End CliFacts.

(* ================================================================== *)
(** * The upload filter *)
(* ================================================================== *)

Module AppFacts.
Import Py App.

Lemma rsplit_dot_plain s : contains_dot s = false -> rsplit_dot s = [s].
Proof.
  induction s as [|c s IH]; [reflexivity|].
  cbn [contains_dot rsplit_dot]. intros H.
  apply orb_false_elim in H. destruct H as [Hc Hs].
  rewrite (IH Hs), Hc. reflexivity.
Qed.

Lemma rsplit_dot_app stem : forall extension,
  contains_dot extension = false ->
  rsplit_dot (stem ++ "." ++ extension) = [stem; extension].
Proof.
  induction stem as [|c stem IH]; intros extension H.
  - cbn [append rsplit_dot]. rewrite (rsplit_dot_plain _ H). reflexivity.
  - cbn [append rsplit_dot]. cbn [append] in IH. rewrite (IH _ H). reflexivity.
Qed.

Lemma contains_dot_app a b :
  contains_dot (a ++ b) = contains_dot a || contains_dot b.
Proof.
  induction a as [|c a IH]; [reflexivity|].
  cbn [append contains_dot]. rewrite IH, orb_assoc. reflexivity.
Qed.

Lemma rsplit_dot_dotted s :
  contains_dot s = true ->
  exists stem extension,
    s = stem ++ "." ++ extension /\ contains_dot extension = false.
Proof.
  induction s as [|c s IH]; [discriminate|].
  cbn [contains_dot]. intros H.
  destruct (contains_dot s) eqn:D.
  - destruct (IH eq_refl) as (stem & extension & -> & E).
    exists (String c stem), extension. split; [reflexivity | exact E].
  - rewrite orb_false_r in H. apply Ascii.eqb_eq in H. subst c.
    exists "", s. split; [reflexivity | exact D].
Qed.

Lemma allowed_file_intro stem extension :
  contains_dot extension = false ->
  In (lower extension) ALLOWED_EXTENSIONS ->
  allowed_file (stem ++ "." ++ extension) = true.
Proof.
  intros E I. unfold allowed_file.
  rewrite (rsplit_dot_app stem extension E), contains_dot_app.
  cbn [append contains_dot Ascii.eqb]. rewrite orb_true_r. cbn [andb].
  apply existsb_exists. exists (lower extension).
  split; [exact I | apply String.eqb_refl].
Qed.

(** [allowed_file] accepts exactly the names that have a dot and whose
    part after the last dot is, whatever the case, one of md, txt, yml,
    yaml and json. *)
Theorem allowed_file_iff_extension_allowed :
  forall filename : string,
    allowed_file filename = true
    <-> exists stem extension,
          filename = stem ++ "." ++ extension
          /\ contains_dot extension = false
          /\ In (lower extension) ALLOWED_EXTENSIONS.
Proof.
  intros filename. unfold allowed_file. split.
  - intros H. apply andb_prop in H. destruct H as [D H].
    destruct (rsplit_dot_dotted filename D) as (stem & extension & -> & E).
    rewrite (rsplit_dot_app stem extension E) in H.
    exists stem, extension. split; [reflexivity|]. split; [exact E|].
    apply existsb_exists in H. destruct H as (x & I & X).
    apply String.eqb_eq in X. rewrite X. exact I.
  - intros (stem & extension & -> & E & I). apply allowed_file_intro; assumption.
Qed.

Lemma allowed_file_iff_extension_allowed_witness :
  allowed_file "notes.v2.TXT" = true.
Proof.
  apply (proj2 (allowed_file_iff_extension_allowed "notes.v2.TXT")).
  exists "notes.v2", "TXT". split; [reflexivity|]. split; [reflexivity|].
  right. left. reflexivity.
Defined.

Lemma lower_char_dot c :
  Ascii.eqb (lower_char c) "."%char = Ascii.eqb c "."%char.
Proof. destruct c as [[] [] [] [] [] [] [] []]; reflexivity. Qed.

Lemma lower_char_idem c : lower_char (lower_char c) = lower_char c.
Proof. destruct c as [[] [] [] [] [] [] [] []]; reflexivity. Qed.

Lemma lower_idem s : lower (lower s) = lower s.
Proof.
  induction s as [|c s IH]; [reflexivity|].
  cbn [lower]. rewrite lower_char_idem, IH. reflexivity.
Qed.

Lemma contains_dot_lower s : contains_dot (lower s) = contains_dot s.
Proof.
  induction s as [|c s IH]; [reflexivity|].
  cbn [lower contains_dot]. rewrite lower_char_dot, IH. reflexivity.
Qed.

Lemma rsplit_dot_lower s : rsplit_dot (lower s) = map lower (rsplit_dot s).
Proof.
  induction s as [|c s IH]; [reflexivity|].
  cbn [lower rsplit_dot]. rewrite IH, lower_char_dot.
  destruct (rsplit_dot s) as [|tail [|extension pieces]]; cbn [map].
  - reflexivity.
  - destruct (Ascii.eqb c "."%char); reflexivity.
  - reflexivity.
Qed.

Lemma allowed_file_lower filename :
  allowed_file (lower filename) = allowed_file filename.
Proof.
  unfold allowed_file. rewrite contains_dot_lower, rsplit_dot_lower.
  destruct (rsplit_dot filename) as [|stem [|extension pieces]]; cbn [map];
    try reflexivity.
  rewrite lower_idem. reflexivity.
Qed.

(** [allowed_file] does not look at the case of a name: two names that
    differ in case only are both accepted or both refused. *)
Theorem allowed_file_ignores_case :
  forall filename filename' : string,
    lower filename = lower filename' ->
    allowed_file filename = allowed_file filename'.
Proof.
  intros f f' H.
  rewrite <- (allowed_file_lower f), <- (allowed_file_lower f'), H. reflexivity.
Qed.

Lemma allowed_file_ignores_case_witness :
  allowed_file "Merger.YAML" = allowed_file "merger.yaml".
Proof.
  apply (allowed_file_ignores_case "Merger.YAML" "merger.yaml"). reflexivity.
Defined.

Lemma endswith_split s : forall suffix,
  endswith s suffix = true -> exists front, s = front ++ suffix.
Proof.
  induction s as [|c s IH]; intros suffix H; cbn [endswith] in H.
  - rewrite orb_false_r in H. apply String.eqb_eq in H. exists "". exact H.
  - apply orb_prop in H. destruct H as [H|H].
    + apply String.eqb_eq in H. exists "". exact H.
    + destruct (IH suffix H) as [front ->]. exists (String c front). reflexivity.
Qed.

Lemma lower_split p : forall s q,
  lower s = p ++ q -> exists a b, s = a ++ b /\ lower a = p /\ lower b = q.
Proof.
  induction p as [|c p IH]; intros s q H.
  - exists "", s. repeat split. exact H.
  - destruct s as [|c' s]; [discriminate|].
    cbn [lower append] in H. injection H as Hc H.
    destruct (IH s q H) as (a & b & -> & Ha & Hb).
    exists (String c' a), b. cbn [lower append]. rewrite Hc, Ha. repeat split. exact Hb.
Qed.

(** Every name the core accepts by its suffix passes the upload filter:
    a name ending in [.md] whatever the case, as the merger wants it,
    and a name ending in [.yaml], [.yml] or [.json], as the
    configuration loader wants it. *)
Theorem core_suffixes_pass_upload_filter :
  forall filename : string,
    (Merger.is_md filename = true -> allowed_file filename = true)
    /\ (Config.supported filename = true -> allowed_file filename = true).
Proof.
  intros f. split.
  - unfold Merger.is_md. intros H.
    destruct (endswith_split _ _ H) as [front E].
    destruct (lower_split front f ".md" E) as (a & b & -> & _ & Hb).
    destruct b as [|c extension]; [discriminate|].
    cbn [lower] in Hb. injection Hb as Hc He.
    assert (c = "."%char) as ->.
    { apply Ascii.eqb_eq. rewrite <- lower_char_dot, Hc. reflexivity. }
    apply (allowed_file_intro a extension).
    + rewrite <- contains_dot_lower, He. reflexivity.
    + rewrite He. left. reflexivity.
  - unfold Config.supported. intros H.
    apply orb_prop in H. destruct H as [H|H]; [apply orb_prop in H; destruct H as [H|H]|];
      destruct (endswith_split _ _ H) as [front ->].
    + apply (allowed_file_intro front "yaml"); [reflexivity|].
      right. right. right. left. reflexivity.
    + apply (allowed_file_intro front "yml"); [reflexivity|].
      right. right. left. reflexivity.
    + apply (allowed_file_intro front "json"); [reflexivity|].
      right. right. right. right. left. reflexivity.
Qed.

Lemma core_suffixes_pass_upload_filter_witness :
  allowed_file "docs/Intro.MD" = true /\ allowed_file "merger.yml" = true.
Proof.
  split.
  - apply (proj1 (core_suffixes_pass_upload_filter "docs/Intro.MD")). reflexivity.
  - apply (proj2 (core_suffixes_pass_upload_filter "merger.yml")). reflexivity.
Defined.

End AppFacts.
